(** * A model of the movie-review web application (app.py)

    The application is a Flask program with two tables ([users],
    [reviews]), seven routes, a password-hashing library and one outbound
    HTTP call.  The view functions are embedded as programs of a small
    free monad [Prog] whose operations are the effects the source
    performs (ORM queries and commits, hashing with fresh salt, the
    outbound GET).  One interpreter runs a request to completion; a
    second one interleaves two requests operation by operation, which is
    what the server does when it handles them on two threads. *)

From stdpp Require Import base option list gmap strings numbers.

Open Scope string_scope.
Open Scope Z_scope.
Open Scope list_scope.

(** ** Exceptions the source can raise (none of them is ever caught:
    app.py has no [try] block). *)

Inductive Exn : Type :=
| BadRequestKeyError (key : string)  (* request.form[key], key absent *)
| IntegrityError                     (* unique=True violated at commit *)
| DataError                          (* value longer than its String(n) column *)
| ValueError                         (* raised by the hashing library *)
| JSONDecodeError                    (* response.json() on a non-JSON body *)
| ConnectionError                    (* requests.get, transport failure *)
| MethodNotAllowed.                  (* route not registered for the method *)

#[global] Instance Exn_eq_dec : EqDecision Exn.
Proof. solve_decision. Defined.

(** ** Models (lines 44-65) *)

Module User.
Record t : Type := mk
    { id : Z;               (* db.Integer, primary_key=True *)
      username : string;    (* db.String(80), unique=True, nullable=False *)
      password : string }.  (* db.String(200), nullable=False *)
#[global] Instance eq_dec : EqDecision t.
Proof. solve_decision. Defined.
End User.

Module Review.
Record t : Type := mk
    { id : Z;               (* db.Integer, primary_key=True *)
      movie_title : string; (* db.String(255), nullable=False *)
      review_text : string; (* db.Text, nullable=False *)
      user_id : Z }.        (* db.ForeignKey('users.id'), nullable=False *)
#[global] Instance eq_dec : EqDecision t.
Proof. solve_decision. Defined.
End Review.

(** The database: both tables in insertion order, and the two
    primary-key sequences. *)
Record DB : Type := mkDB
  { users : list User.t;
    reviews : list Review.t;
    users_id_seq : Z;
    reviews_id_seq : Z }.

Definition empty_db : DB :=
  {| users := []; reviews := []; users_id_seq := 1; reviews_id_seq := 1 |}.

(** ** The ORM operations the views use *)

(** [User.query.filter_by(username=u)] *)
Definition filter_by_username (u : string) (l : list User.t) : list User.t :=
  filter (λ r, User.username r = u) l.

(** [Review.query.filter_by(movie_title=t)] *)
Definition filter_by_movie_title (t : string) (l : list Review.t) : list Review.t :=
  filter (λ r, Review.movie_title r = t) l.

(** [.first()] *)
Definition first {A} (l : list A) : option A := head l.

(** [User.query.get(i)] *)
Definition query_get (i : Z) (l : list User.t) : option User.t :=
  first (filter (λ r, User.id r = i) l).

(** ** What the store does with a value for a [String(n)] column

    The configured store is PostgreSQL (line 23).  It keeps a value of at
    most [n] characters as it is, shortens to [n] characters a longer one
    whose excess is blanks only, and rejects any other. *)

Fixpoint string_take (n : nat) (s : string) : string :=
  match n, s with
  | S n', String c r => String c (string_take n' r)
  | _, _ => ""
  end.

Fixpoint string_drop (n : nat) (s : string) : string :=
  match n, s with
  | S n', String c r => string_drop n' r
  | _, _ => s
  end.

Fixpoint all_blank (s : string) : bool :=
  match s with
  | "" => true
  | String c r => Ascii.eqb c (Ascii.ascii_of_nat 32) && all_blank r
  end.

Definition store_varchar (n : nat) (s : string) : option string :=
  if decide (String.length s ≤ n)%nat then Some s
  else if all_blank (string_drop n s) then Some (string_take n s)
  else None.

(** A primary key drawn from the sequence and not used: the sequence
    does not go back when the insert fails on a constraint. *)
Definition skip_user_id (d : DB) : DB :=
  {| users := users d;
     reviews := reviews d;
     users_id_seq := users_id_seq d + 1;
     reviews_id_seq := reviews_id_seq d |}.

Definition skip_review_id (d : DB) : DB :=
  {| users := users d;
     reviews := reviews d;
     users_id_seq := users_id_seq d;
     reviews_id_seq := reviews_id_seq d + 1 |}.

(** [db.session.add(User(username=u, password=h)); db.session.commit()].
    The column declarations are enforced by the store: each value is
    kept, shortened or rejected as its [String(n)] column has it
    ([DataError]), and a second row with the same stored username is
    refused ([IntegrityError]).  The result is the outcome and the
    database after it. *)
Definition insert_user (u h : string) (d : DB) : (Exn + User.t) * DB :=
  match store_varchar 80 u, store_varchar 200 h with
  | Some u', Some h' =>
      if decide (filter_by_username u' (users d) = []) then
        let row := User.mk (users_id_seq d) u' h' in
        (inr row, {| users := users d ++ [row];
                     reviews := reviews d;
                     users_id_seq := users_id_seq d + 1;
                     reviews_id_seq := reviews_id_seq d |})
      else (inl IntegrityError, skip_user_id d)
  | _, _ => (inl DataError, d)
  end.

(** [db.session.add(Review(...)); db.session.commit()].  The foreign key
    must name an existing user. *)
Definition insert_review (t x : string) (uid : Z) (d : DB) : (Exn + Review.t) * DB :=
  match store_varchar 255 t with
  | Some t' =>
      if decide (query_get uid (users d) = None) then (inl IntegrityError, skip_review_id d)
      else
        let row := Review.mk (reviews_id_seq d) t' x uid in
        (inr row, {| users := users d;
                     reviews := reviews d ++ [row];
                     users_id_seq := users_id_seq d;
                     reviews_id_seq := reviews_id_seq d + 1 |})
  | None => (inl DataError, d)
  end.

(** ** The world outside the process *)

(** A JSON value; [JNull] is Python's [None]. *)
#[local] Unset Elimination Schemes.
Inductive Json : Type :=
| JNull
| JBool (b : bool)
| JNumber (n : Z)
| JString (s : string)
| JArray (l : list Json)
| JObject (l : list (string * Json)).
#[local] Set Elimination Schemes.

(** What [requests.get] hands back: the status code, and what
    [response.json()] gives ([None] when the body is not JSON and the call
    raises). *)
Record HttpResponse : Type := mkResp
  { status_code : Z;
    json : option Json }.

(** The environment answers the two things the process cannot decide:
    the random salt of each hash, and the upstream's reply to each
    outbound GET ([None] when the transport fails and [requests.get]
    raises).  Both are indexed by a clock so that they may differ from
    call to call. *)
Record Env : Type := mkEnv
  { urandom : nat → string;
    requests_get : nat → string → option HttpResponse }.

(** The password-hashing library (flask_bcrypt), taken as an interface:
    hashing takes the password and a salt and gives the hash,
    verification takes the stored hash and a candidate password and
    answers yes or no; either gives [None] when the library refuses its
    input and raises. *)
Class Bcrypt : Type := mkBcrypt
  { generate_password_hash : string → string → option string;
    check_password_hash : string → string → option bool }.

(** An optional result, raising [e] when there is none. *)
Definition or_raise {A} (e : Exn) (o : option A) : Exn + A :=
  match o with
  | Some a => inr a
  | None => inl e
  end.

Record World : Type := mkWorld
  { db : DB;
    clock : nat }.

Definition tick (w : World) : World :=
  {| db := db w; clock := S (clock w) |}.

Definition with_db (d : DB) (w : World) : World :=
  {| db := d; clock := clock w |}.

(** What a request leaves behind. *)
Inductive Event : Type :=
| UserInserted (u : User.t)
| ReviewInserted (r : Review.t)
| HttpRequested (url : string).

(** ** Programs *)

Inductive Op : Type → Type :=
| QueryUserFirst (username : string) : Op (option User.t)
| QueryUserGet (i : Z) : Op (option User.t)
| QueryReviewsAll (title : string) : Op (list Review.t)
| GeneratePasswordHash (password : string) : Op string
| CommitUser (username hashed_pw : string) : Op User.t
| CommitReview (title text : string) (uid : Z) : Op Review.t
| RequestsGet (url : string) : Op HttpResponse.

Inductive Prog (A : Type) : Type :=
| Ret (a : A)
| Raise (e : Exn)
| Vis {X : Type} (op : Op X) (k : X → Prog A).
Arguments Ret {A} a.
Arguments Raise {A} e.
Arguments Vis {A X} op k.

Fixpoint bind {A B} (p : Prog A) (f : A → Prog B) : Prog B :=
  match p with
  | Ret a => f a
  | Raise e => Raise e
  | Vis op k => Vis op (λ x, bind (k x) f)
  end.

#[global] Instance Prog_ret : MRet Prog := @Ret.
#[global] Instance Prog_bind : MBind Prog := λ A B f p, bind p f.

Definition trigger {X} (op : Op X) : Prog X := Vis op Ret.

Section Semantics.
Context {bcrypt : Bcrypt} (E : Env).

  (** One operation, performed atomically on the world. *)
Definition perform {X} (op : Op X) (w : World) : (Exn + X) * World * list Event :=
    match op in Op X return (Exn + X) * World * list Event with
    | QueryUserFirst u => (inr (first (filter_by_username u (users (db w)))), w, [])
    | QueryUserGet i => (inr (query_get i (users (db w))), w, [])
    | QueryReviewsAll t => (inr (filter_by_movie_title t (reviews (db w))), w, [])
    | GeneratePasswordHash pw =>
        (or_raise ValueError (generate_password_hash pw (urandom E (clock w))),
         tick w, [])
    | CommitUser u h =>
        match insert_user u h (db w) with
        | (inl e, d) => (inl e, with_db d w, [])
        | (inr row, d) => (inr row, with_db d w, [UserInserted row])
        end
    | CommitReview t x uid =>
        match insert_review t x uid (db w) with
        | (inl e, d) => (inl e, with_db d w, [])
        | (inr row, d) => (inr row, with_db d w, [ReviewInserted row])
        end
    | RequestsGet url =>
        (or_raise ConnectionError (requests_get E (clock w) url),
         tick w, [HttpRequested url])
    end.

  (** A program run to completion, with nothing else touching the world. *)
Fixpoint run {A} (p : Prog A) (w : World) : (Exn + A) * World * list Event :=
    match p with
    | Ret a => (inr a, w, [])
    | Raise e => (inl e, w, [])
    | Vis op k =>
        let '(r, w1, ev1) := perform op w in
        match r with
        | inl e => (inl e, w1, ev1)
        | inr x => let '(r2, w2, ev2) := run (k x) w1 in (r2, w2, ev1 ++ ev2)
        end
    end.

  (** One operation of a program. *)
Definition step {A} (p : Prog A) (w : World) : Prog A * World * list Event :=
    match p with
    | Ret a => (Ret a, w, [])
    | Raise e => (Raise e, w, [])
    | Vis op k =>
        let '(r, w1, ev1) := perform op w in
        (match r with inl e => Raise e | inr x => k x end, w1, ev1)
    end.

  (** Two requests in flight: the schedule says whose operation is next
      ([true]: the first). *)
Fixpoint interleave {A} (sched : list bool) (p1 p2 : Prog A) (w : World)
    : Prog A * Prog A * World * list Event :=
    match sched with
    | [] => (p1, p2, w, [])
    | true :: s =>
        let '(p1', w1, ev1) := step p1 w in
        let '(q1, q2, w2, ev2) := interleave s p1' p2 w1 in
        (q1, q2, w2, ev1 ++ ev2)
    | false :: s =>
        let '(p2', w1, ev1) := step p2 w in
        let '(q1, q2, w2, ev2) := interleave s p1 p2' w1 in
        (q1, q2, w2, ev1 ++ ev2)
    end.
End Semantics.

(** ** Configuration (lines 23-37) *)

(** [os.getenv(key, fallback)] *)
Definition getenv (environ : gmap string string) (key fallback : string) : string :=
  default fallback (environ !! key).

Record Config : Type := mkConfig
  { SQLALCHEMY_DATABASE_URI : string;
    SECRET_KEY : string;
    login_view : string;
    OMDB_API_KEY : string }.

(** What the module body computes, once, when the process starts. *)
Definition startup (environ : gmap string string) : Config :=
  {| SQLALCHEMY_DATABASE_URI := "postgresql://localhost/movie_reviews";
     SECRET_KEY := getenv environ "SECRET_KEY" "fallback-secret-key";
     login_view := "login";
     OMDB_API_KEY := getenv environ "OMDB_API_KEY" "fallback-api-key" |}.

(** ** Requests and responses *)

(** The two methods the routes are registered for. *)
Inductive Method : Type := GET | POST.

(** A request as the views see it: the method, the form fields, and the
    user id carried by the signed session cookie, if any. *)
Record Request : Type := mkReq
  { method : Method;
    form : gmap string string;
    session : option Z }.

Inductive Value : Type :=
| VStr (s : string)
| VJson (j : Json)
| VReviews (l : list Review.t).

Inductive Response : Type :=
| Rendered (template : string) (context : list (string * Value))
| Redirected (location : string).

Definition render_template (template : string) (context : list (string * Value))
  : Response := Rendered template context.

Definition redirect (location : string) : Response := Redirected location.

(** The three endpoints the source redirects to: ['home'] is mounted at
    [/], the others at [/<endpoint>]. *)
Definition url_for (endpoint : string) : string :=
  if decide (endpoint = "home") then "/" else "/" +:+ endpoint.

(** [request.form[key]] *)
Definition form_getitem (f : gmap string string) (key : string) : Prog string :=
  match f !! key with
  | Some v => Ret v
  | None => Raise (BadRequestKeyError key)
  end.

(** [request.form.get(key)] *)
Definition form_get (f : gmap string string) (key : string) : option string :=
  f !! key.

(** How an f-string renders a value that may be [None]. *)
Definition format_value (v : option string) : string := default "None" v.

(** A library call that answers or raises. *)
Definition raising {A} (e : Exn) (o : option A) : Prog A :=
  match o with
  | Some a => Ret a
  | None => Raise e
  end.

(** [response.json()] *)
Definition response_json (r : HttpResponse) : Prog Json :=
  match json r with
  | Some j => Ret j
  | None => Raise JSONDecodeError
  end.

(** [login_user(user)]: the session now names the user. *)
Definition login_user (u : User.t) : option Z := Some (User.id u).

(** [logout_user()] *)
Definition logout_user : option Z := None.

(** [load_user], the callback that resolves the session to a user
    (lines 72-78). *)
Definition load_user (user_id : Z) : Prog (option User.t) :=
  trigger (QueryUserGet user_id).

(** ** Routes (lines 85-201)

    A view returns the response and the session the client holds
    afterwards. *)

Section Views.
Context {bcrypt : Bcrypt} (cfg : Config).

(** [@login_required]: the wrapped view runs only for a session that
    resolves to a user; otherwise the client is sent to [login_view]. *)
Definition login_required (view : User.t → Request → Prog (Response * option Z))
    (req : Request) : Prog (Response * option Z) :=
  current_user ← match session req with
                 | Some i => load_user i
                 | None => Ret None
                 end;
  match current_user with
  | Some u => view u req
  | None => Ret (redirect (url_for (login_view cfg)), session req)
  end.

Definition home (req : Request) : Prog (Response * option Z) :=
  Ret (render_template "home.html" [], session req).

Definition register (req : Request) : Prog (Response * option Z) :=
  match method req with
  | POST =>
      username ← form_getitem (form req) "username";
      password ← form_getitem (form req) "password";
      existing_user ← trigger (QueryUserFirst username);
      match existing_user with
      | Some _ => Ret (redirect (url_for "register"), session req)
      | None =>
          hashed_pw ← trigger (GeneratePasswordHash password);
          new_user ← trigger (CommitUser username hashed_pw);
          Ret (redirect (url_for "home"), login_user new_user)
      end
  | GET => Ret (render_template "register.html" [], session req)
  end.

Definition login (req : Request) : Prog (Response * option Z) :=
  match method req with
  | POST =>
      username ← form_getitem (form req) "username";
      password ← form_getitem (form req) "password";
      user ← trigger (QueryUserFirst username);
      match user with
      | Some u =>
          verified ← raising ValueError (check_password_hash (User.password u) password);
          if verified : bool
          then Ret (redirect (url_for "home"), login_user u)
          else Ret (redirect (url_for "login"), session req)
      | None => Ret (redirect (url_for "login"), session req)
      end
  | GET => Ret (render_template "login.html" [], session req)
  end.

Definition logout (current_user : User.t) (req : Request)
  : Prog (Response * option Z) :=
  Ret (redirect (url_for "home"), logout_user).

Definition search (req : Request) : Prog (Response * option Z) :=
  movie_data ← match method req with
               | POST =>
                   let title := form_get (form req) "title" in
                   let url := "http://www.omdbapi.com/?apikey=" +:+ OMDB_API_KEY cfg
                              +:+ "&t=" +:+ format_value title in
                   response ← trigger (RequestsGet url);
                   if decide (status_code response = 200)
                   then response_json response
                   else Ret JNull
               | GET => Ret JNull
               end;
  Ret (render_template "search.html" [("movie", VJson movie_data)], session req).

Definition review (title : string) (current_user : User.t) (req : Request)
  : Prog (Response * option Z) :=
  match method req with
  | POST =>
      review_text ← form_getitem (form req) "review_text";
      new_review ← trigger (CommitReview title review_text (User.id current_user));
      Ret (redirect (url_for "home"), session req)
  | GET => Ret (render_template "review.html" [("title", VStr title)], session req)
  end.

Definition view_reviews (title : string) (req : Request)
  : Prog (Response * option Z) :=
  reviews ← trigger (QueryReviewsAll title);
  Ret (render_template "reviews.html" [("title", VStr title); ("reviews", VReviews reviews)],
       session req).

(** The URL map built by the [@app.route] decorators. *)
Inductive Route : Type :=
| route_home
| route_register
| route_login
| route_logout
| route_search
| route_review (title : string)
| route_view_reviews (title : string).

Definition dispatch (r : Route) (req : Request) : Prog (Response * option Z) :=
  match r, method req with
  | route_home, GET => home req
  | route_register, _ => register req
  | route_login, _ => login req
  | route_logout, GET => login_required logout req
  | route_search, _ => search req
  | route_review title, _ => login_required (review title) req
  | route_view_reviews title, GET => view_reviews title req
  | _, POST => Raise MethodNotAllowed
  end.

(** One request served on its own, and a sequence of them served one
    after the other. *)
Definition handle (E : Env) (r : Route) (req : Request) (w : World)
  : (Exn + Response * option Z) * World * list Event :=
  run E (dispatch r req) w.

Fixpoint serve (E : Env) (reqs : list (Route * Request)) (w : World)
  : World * list Event :=
  match reqs with
  | [] => (w, [])
  | (r, req) :: rest =>
      let '(_, w1, ev1) := handle E r req w in
      let '(w2, ev2) := serve E rest w1 in
      (w2, ev1 ++ ev2)
  end.

End Views.

(** ** Sample hashing libraries

    A library to run the model with: it refuses the empty password, as
    flask_bcrypt does, and ignores the salt. *)
Definition plain_bcrypt : Bcrypt :=
  {| generate_password_hash pw salt :=
       if decide (pw = "") then None else Some ("$" +:+ pw);
     check_password_hash h pw := Some (bool_decide (h = "$" +:+ pw)) |}.

(** bcrypt reads the first 72 bytes of a password and no more.  This
    instance has that one trait of the library the code calls: the hash
    is made from those bytes alone. *)
Definition bcrypt72 : Bcrypt :=
  {| generate_password_hash pw salt :=
       if decide (pw = "") then None else Some ("$" +:+ string_take 72 pw);
     check_password_hash h pw := Some (bool_decide (h = "$" +:+ string_take 72 pw)) |}.

(** ** Sample data *)

Definition quiet_env : Env :=
  {| urandom := λ _, "salt";
     requests_get := λ _ _, Some {| status_code := 404; json := None |} |}.

Definition found_env : Env :=
  {| urandom := λ _, "salt";
     requests_get := λ _ _,
       Some {| status_code := 200;
               json := Some (JObject [("Title", JString "Dune")]) |} |}.

(** An upstream that answers 200 with a body that is not JSON. *)
Definition broken_env : Env :=
  {| urandom := λ _, "salt";
     requests_get := λ _ _, Some {| status_code := 200; json := None |} |}.

Definition world0 : World := {| db := empty_db; clock := 0 |}.

Definition post (fields : list (string * string)) (s : option Z) : Request :=
  {| method := POST; form := list_to_map fields; session := s |}.

Definition get (s : option Z) : Request :=
  {| method := GET; form := ∅; session := s |}.

Definition alice_form : list (string * string) :=
  [("username", "alice"); ("password", "pw1")].

Definition alice : User.t := User.mk 1 "alice" "$pw1".

(** The world once alice has registered. *)
Definition alice_world : World :=
  {| db := {| users := [alice]; reviews := [];
              users_id_seq := 2; reviews_id_seq := 1 |};
     clock := 1 |}.

(** A username of 81 characters, the last one a blank, and what the
    store keeps of it. *)
Definition long_name : string :=
  "wwwwwwwwwwwwwwwwwwwwwwwwwwwwwwwwwwwwwwwwwwwwwwwwwwwwwwwwwwwwwwwwwwwwwwwwwwwwwwww ".

Definition long_form : list (string * string) :=
  [("username", long_name); ("password", "pw1")].

Definition long_user : User.t :=
  User.mk 1 "wwwwwwwwwwwwwwwwwwwwwwwwwwwwwwwwwwwwwwwwwwwwwwwwwwwwwwwwwwwwwwwwwwwwwwwwwwwwwwww" "$pw1".

(** The world once [long_name] has registered. *)
Definition long_world : World :=
  {| db := {| users := [long_user]; reviews := [];
              users_id_seq := 2; reviews_id_seq := 1 |};
     clock := 1 |}.

(** Two passwords of 73 characters that differ in the last one only. *)
Definition password_a : string :=
  "aaaaaaaaaaaaaaaaaaaaaaaaaaaaaaaaaaaaaaaaaaaaaaaaaaaaaaaaaaaaaaaaaaaaaaaa1".

Definition password_b : string :=
  "aaaaaaaaaaaaaaaaaaaaaaaaaaaaaaaaaaaaaaaaaaaaaaaaaaaaaaaaaaaaaaaaaaaaaaaa2".

Definition carol : User.t :=
  User.mk 1 "carol" "$aaaaaaaaaaaaaaaaaaaaaaaaaaaaaaaaaaaaaaaaaaaaaaaaaaaaaaaaaaaaaaaaaaaaaaaa".

(** The world once carol has registered with [password_a], the library
    being [bcrypt72]. *)
Definition carol_world : World :=
  {| db := {| users := [carol]; reviews := [];
              users_id_seq := 2; reviews_id_seq := 1 |};
     clock := 1 |}.

(** ** What a log of events says was inserted *)

Definition inserted_users (ev : list Event) : list User.t :=
  omap (λ e, match e with UserInserted u => Some u | _ => None end) ev.

Definition inserted_reviews (ev : list Event) : list Review.t :=
  omap (λ e, match e with ReviewInserted r => Some r | _ => None end) ev.

(** The schedule of the race between two registrations: both run their
    duplicate check, then the first hashes and commits, then the second. *)
Definition race_schedule : list bool := [true; false; true; true; false; false].

(** The outbound requests a log records. *)
Definition http_requests (ev : list Event) : list string :=
  omap (λ e, match e with HttpRequested url => Some url | _ => None end) ev.

(** ** What the tables keep

    The declarations of the two models: usernames fit their column and
    are unique, primary keys are unique and come from their sequences,
    and the user of every review exists. *)
Definition db_ok (d : DB) : Prop :=
  Forall (λ r, (String.length (User.username r) ≤ 80)%nat) (users d)
  ∧ NoDup (User.username <$> users d)
  ∧ NoDup (User.id <$> users d)
  ∧ Forall (λ r, User.id r < users_id_seq d) (users d)
  ∧ NoDup (Review.id <$> reviews d)
  ∧ Forall (λ r, Review.id r < reviews_id_seq d) (reviews d)
  ∧ Forall (λ r, is_Some (query_get (Review.user_id r) (users d))) (reviews d).

(** * Properties *)

Section Properties.
Context {bcrypt : Bcrypt} (E : Env) (environ : gmap string string).

Abbreviation cfg := (startup environ).

(** The user a session resolves to, as [login_required] computes it. *)
Definition current_user (s : option Z) (w : World) : option User.t :=
  i ← s; query_get i (users (db w)).

(** The URL [search] builds for a title. *)
Definition search_url (title : option string) : string :=
  "http://www.omdbapi.com/?apikey=" +:+ OMDB_API_KEY cfg
  +:+ "&t=" +:+ format_value title.

(** ** Running a guarded view *)

Lemma run_login_required_anonymous view req w :
  current_user (session req) w = None →
  run E (login_required cfg view req) w
  = (inr (redirect "/login", session req), w, []).
Proof.
  unfold current_user, login_required. intros Hnone.
  destruct (session req) as [i|]; simpl in *.
  - rewrite Hnone. reflexivity.
  - reflexivity.
Qed.

Lemma run_login_required_user view req w u :
  current_user (session req) w = Some u →
  run E (login_required cfg view req) w = run E (view u req) w.
Proof.
  unfold current_user, login_required. intros Hu.
  destruct (session req) as [i|]; simpl in *; [|discriminate].
  rewrite Hu. simpl. destruct (run E (view u req) w) as [[r w'] ev]. reflexivity.
Qed.

Lemma dispatch_review title req :
  dispatch cfg (route_review title) req = login_required cfg (review title) req.
Proof. unfold dispatch. destruct (method req); reflexivity. Qed.

(** C5. A request to /review/<title>, GET or POST, whose session does not
    resolve to a user is turned away by the guard: the response is a
    redirect to the login page, the database is untouched and no row is
    inserted. *)
Theorem review_requires_login (title : string) (req : Request) (w : World) :
  current_user (session req) w = None →
  handle cfg E (route_review title) req w
  = (inr (redirect "/login", session req), w, []).
Proof.
  intros Hnone. unfold handle. rewrite dispatch_review.
  apply run_login_required_anonymous, Hnone.
Qed.

(** C9. An authenticated POST to /review/<title> without the field
    [review_text] fails with the unhandled lookup error of
    [request.form['review_text']]; nothing is inserted. *)
Theorem review_missing_text_faults (title : string) (req : Request) (w : World)
    (u : User.t) :
  method req = POST →
  current_user (session req) w = Some u →
  form req !! "review_text" = None →
  handle cfg E (route_review title) req w
  = (inl (BadRequestKeyError "review_text"), w, []).
Proof.
  intros Hm Hu Hf. unfold handle. rewrite dispatch_review.
  rewrite (run_login_required_user _ _ _ u Hu).
  unfold review, form_getitem. rewrite Hm, Hf. reflexivity.
Qed.

(** ** The metadata search *)

Lemma dispatch_search req : dispatch cfg route_search req = search cfg req.
Proof. unfold dispatch. destruct (method req); reflexivity. Qed.

(** What a POST to /search does, whatever the form holds: one outbound
    GET, then the view decides on the reply. *)
Lemma run_search_post req w :
  method req = POST →
  run E (search cfg req) w
  = let url := search_url (form_get (form req) "title") in
    match requests_get E (clock w) url with
    | None => (inl ConnectionError, tick w, [HttpRequested url])
    | Some response =>
        if decide (status_code response = 200) then
          match json response with
          | Some j => (inr (render_template "search.html" [("movie", VJson j)],
                            session req), tick w, [HttpRequested url])
          | None => (inl JSONDecodeError, tick w, [HttpRequested url])
          end
        else (inr (render_template "search.html" [("movie", VJson JNull)],
                   session req), tick w, [HttpRequested url])
    end.
Proof.
  intros Hm. unfold search, search_url. rewrite Hm. cbn.
  destruct (requests_get E (clock w) _) as [response|]; cbn; [|reflexivity].
  destruct (decide (status_code response = 200)) as [H200|H200]; [|reflexivity].
  unfold response_json. destruct (json response); reflexivity.
Qed.

(** C6. When the upstream answers a search with a status other than 200,
    the search page is rendered with no movie ([None]) and nothing is
    raised; when it answers 200, the JSON value parsed from the body is
    handed to the page as it is. *)
Theorem search_status_decides (req : Request) (w : World) (response : HttpResponse) :
  method req = POST →
  requests_get E (clock w) (search_url (form_get (form req) "title")) = Some response →
  let url := search_url (form_get (form req) "title") in
  (status_code response ≠ 200 →
   handle cfg E route_search req w
   = (inr (render_template "search.html" [("movie", VJson JNull)], session req),
      tick w, [HttpRequested url]))
  ∧ (∀ j, status_code response = 200 → json response = Some j →
     handle cfg E route_search req w
     = (inr (render_template "search.html" [("movie", VJson j)], session req),
        tick w, [HttpRequested url])).
Proof.
  intros Hm Hget url. unfold handle. rewrite dispatch_search, (run_search_post _ _ Hm).
  cbv zeta. rewrite Hget. split.
  - intros Hne. rewrite decide_False by exact Hne. reflexivity.
  - intros j H200 Hj. rewrite decide_True by exact H200. rewrite Hj. reflexivity.
Qed.

(** C10. A POST to /search without the field [title] does not fail on the
    missing field: [request.form.get] yields [None], the outbound GET is
    still issued, and its [t] parameter is the text [None]. *)
Theorem search_missing_title_requests_None (req : Request) (w : World) :
  method req = POST →
  form req !! "title" = None →
  ∃ outcome,
    handle cfg E route_search req w
    = (outcome, tick w,
       [HttpRequested ("http://www.omdbapi.com/?apikey=" +:+ OMDB_API_KEY cfg +:+ "&t=None")])
    ∧ ∀ key, outcome ≠ inl (BadRequestKeyError key).
Proof.
  intros Hm Hf. unfold handle. rewrite dispatch_search, (run_search_post _ _ Hm).
  unfold search_url, form_get. rewrite Hf. cbv zeta. unfold format_value, default.
  destruct (requests_get E (clock w) _) as [response|].
  - destruct (decide _); [destruct (json response)|];
      (eexists; split; [reflexivity|discriminate]).
  - eexists; split; [reflexivity|discriminate].
Qed.

(** ** The tables only grow, by what the log records *)

Lemma store_varchar_fits n s :
  (String.length s ≤ n)%nat → store_varchar n s = Some s.
Proof. intros Hlen. unfold store_varchar. by rewrite decide_True. Qed.

Lemma string_take_length n s : (String.length (string_take n s) ≤ n)%nat.
Proof.
  revert s. induction n as [|n IH]; intros [|c r]; simpl; try lia.
  specialize (IH r). lia.
Qed.

Lemma store_varchar_length n s s' :
  store_varchar n s = Some s' → (String.length s' ≤ n)%nat.
Proof.
  unfold store_varchar. destruct (decide _) as [Hlen|Hlen].
  - by intros [= <-].
  - destruct (all_blank _); [|discriminate].
    intros [= <-]. apply string_take_length.
Qed.

(** What a successful insert of a user did. *)
Lemma insert_user_inr u h d row d' :
  insert_user u h d = (inr row, d') →
  ∃ u' h',
    store_varchar 80 u = Some u' ∧ store_varchar 200 h = Some h'
    ∧ row = User.mk (users_id_seq d) u' h'
    ∧ users d' = users d ++ [row] ∧ reviews d' = reviews d
    ∧ users_id_seq d' = users_id_seq d + 1
    ∧ reviews_id_seq d' = reviews_id_seq d
    ∧ filter_by_username u' (users d) = [].
Proof.
  unfold insert_user. intros H.
  destruct (store_varchar 80 u) as [u'|]; [|discriminate].
  destruct (store_varchar 200 h) as [h'|]; [|discriminate].
  destruct (decide _) as [Hfree|]; [|discriminate].
  injection H as <- <-. exists u', h'. auto 10.
Qed.

(** A failed insert of a user left the rows alone. *)
Lemma insert_user_inl u h d e d' :
  insert_user u h d = (inl e, d') →
  users d' = users d ∧ reviews d' = reviews d
  ∧ users_id_seq d ≤ users_id_seq d'
  ∧ reviews_id_seq d' = reviews_id_seq d.
Proof.
  unfold insert_user. intros H.
  destruct (store_varchar 80 u) as [u'|];
    [destruct (store_varchar 200 h) as [h'|];
       [destruct (decide _) as [Hfree|]; [discriminate|]|]|];
    injection H as <- <-; simpl; repeat split; lia.
Qed.

Lemma insert_review_inr t x uid d row d' :
  insert_review t x uid d = (inr row, d') →
  ∃ t',
    store_varchar 255 t = Some t'
    ∧ row = Review.mk (reviews_id_seq d) t' x uid
    ∧ users d' = users d ∧ reviews d' = reviews d ++ [row]
    ∧ users_id_seq d' = users_id_seq d
    ∧ reviews_id_seq d' = reviews_id_seq d + 1
    ∧ query_get uid (users d) ≠ None.
Proof.
  unfold insert_review. intros H.
  destruct (store_varchar 255 t) as [t'|]; [|discriminate].
  destruct (decide _) as [|Huser]; [discriminate|].
  injection H as <- <-. exists t'. auto 10.
Qed.

Lemma insert_review_inl t x uid d e d' :
  insert_review t x uid d = (inl e, d') →
  users d' = users d ∧ reviews d' = reviews d
  ∧ users_id_seq d' = users_id_seq d
  ∧ reviews_id_seq d ≤ reviews_id_seq d'.
Proof.
  unfold insert_review. intros H.
  destruct (store_varchar 255 t) as [t'|];
    [destruct (decide _) as [|Huser]; [|discriminate]|];
    injection H as <- <-; simpl; repeat split; lia.
Qed.

Lemma perform_tables {X} (op : Op X) w :
  users (db (perform E op w).1.2)
  = users (db w) ++ inserted_users (perform E op w).2
  ∧ reviews (db (perform E op w).1.2)
    = reviews (db w) ++ inserted_reviews (perform E op w).2.
Proof.
  destruct op; simpl; rewrite ?app_nil_r; try done.
  - destruct (insert_user _ _ _) as [[e|row] d] eqn:Hins; simpl.
    + apply insert_user_inl in Hins as (-> & -> & _). by rewrite !app_nil_r.
    + apply insert_user_inr in Hins as (u' & h' & _ & _ & _ & -> & -> & _).
      by rewrite app_nil_r.
  - destruct (insert_review _ _ _ _) as [[e|row] d] eqn:Hins; simpl.
    + apply insert_review_inl in Hins as (-> & -> & _). by rewrite !app_nil_r.
    + apply insert_review_inr in Hins as (t' & _ & _ & -> & -> & _).
      by rewrite app_nil_r.
Qed.

Lemma inserted_users_app ev1 ev2 :
  inserted_users (ev1 ++ ev2) = inserted_users ev1 ++ inserted_users ev2.
Proof. apply omap_app. Qed.

Lemma inserted_reviews_app ev1 ev2 :
  inserted_reviews (ev1 ++ ev2) = inserted_reviews ev1 ++ inserted_reviews ev2.
Proof. apply omap_app. Qed.

Lemma run_tables {A} (p : Prog A) w :
  users (db (run E p w).1.2) = users (db w) ++ inserted_users (run E p w).2
  ∧ reviews (db (run E p w).1.2) = reviews (db w) ++ inserted_reviews (run E p w).2.
Proof.
  revert w. induction p as [a|e|X op k IH]; intros w; simpl.
  - by rewrite !app_nil_r.
  - by rewrite !app_nil_r.
  - pose proof (perform_tables op w) as [Hu Hr].
    destruct (perform E op w) as [[[e|x] w1] ev1]; simpl in *; [done|].
    specialize (IH x w1) as [Hu' Hr'].
    destruct (run E (k x) w1) as [[r2 w2] ev2]; simpl in *.
    rewrite inserted_users_app, inserted_reviews_app, !app_assoc, <- Hu, <- Hr.
    done.
Qed.

Lemma serve_tables reqs w :
  users (db (serve cfg E reqs w).1)
  = users (db w) ++ inserted_users (serve cfg E reqs w).2
  ∧ reviews (db (serve cfg E reqs w).1)
    = reviews (db w) ++ inserted_reviews (serve cfg E reqs w).2.
Proof.
  revert w. induction reqs as [|[r req] rest IH]; intros w; simpl.
  - by rewrite !app_nil_r.
  - unfold handle. pose proof (run_tables (dispatch cfg r req) w) as [Hu Hr].
    destruct (run E (dispatch cfg r req) w) as [[out w1] ev1]; simpl in *.
    specialize (IH w1) as [Hu' Hr'].
    destruct (serve cfg E rest w1) as [w2 ev2]; simpl in *.
    rewrite inserted_users_app, inserted_reviews_app, !app_assoc, <- Hu, <- Hr.
    done.
Qed.

(** A row found by [.first()] stays the one found however the table
    grows. *)
Lemma first_filter_by_username_app u l extra row :
  first (filter_by_username u l) = Some row →
  first (filter_by_username u (l ++ extra)) = Some row.
Proof.
  unfold first, filter_by_username. rewrite list.filter_app.
  destruct (filter _ l); [discriminate|]. done.
Qed.

(** ** Registration and login *)

Lemma dispatch_register req : dispatch cfg route_register req = register req.
Proof. unfold dispatch. destruct (method req); reflexivity. Qed.

Lemma dispatch_login req : dispatch cfg route_login req = login req.
Proof. unfold dispatch. destruct (method req); reflexivity. Qed.

Lemma run_register_post req w u pw :
  method req = POST →
  form req !! "username" = Some u →
  form req !! "password" = Some pw →
  run E (register req) w
  = match first (filter_by_username u (users (db w))) with
    | Some _ => (inr (redirect "/register", session req), w, [])
    | None =>
        match generate_password_hash pw (urandom E (clock w)) with
        | None => (inl ValueError, tick w, [])
        | Some h =>
            match insert_user u h (db w) with
            | (inl e, d) => (inl e, with_db d (tick w), [])
            | (inr row, d) =>
                (inr (redirect "/", login_user row), with_db d (tick w),
                 [UserInserted row])
            end
        end
    end.
Proof.
  intros Hm Hu Hp. unfold register, form_getitem. rewrite Hm, Hu, Hp. cbn.
  destruct (first _); [reflexivity|]. cbn.
  destruct (generate_password_hash pw _) as [h|]; cbn; [|reflexivity].
  destruct (insert_user u h (db w)) as [[e|row] d]; reflexivity.
Qed.

Lemma run_login_post req w u pw :
  method req = POST →
  form req !! "username" = Some u →
  form req !! "password" = Some pw →
  run E (login req) w
  = match first (filter_by_username u (users (db w))) with
    | Some row =>
        match check_password_hash (User.password row) pw with
        | Some true => (inr (redirect "/", login_user row), w, [])
        | Some false => (inr (redirect "/login", session req), w, [])
        | None => (inl ValueError, w, [])
        end
    | None => (inr (redirect "/login", session req), w, [])
    end.
Proof.
  intros Hm Hu Hp. unfold login, form_getitem. rewrite Hm, Hu, Hp. cbn.
  destruct (first _) as [row|]; [|reflexivity].
  destruct (check_password_hash _ _) as [[|]|]; reflexivity.
Qed.

(** A registration that ends in the redirect to the home page has
    inserted exactly one row: the username and the hash of the password
    under the salt drawn at that moment, each as the store keeps it. *)
Lemma register_success_inv req w s w1 ev u :
  method req = POST →
  form req !! "username" = Some u →
  handle cfg E route_register req w = (inr (redirect "/", s), w1, ev) →
  ∃ pw h u' h' row,
    form req !! "password" = Some pw
    ∧ generate_password_hash pw (urandom E (clock w)) = Some h
    ∧ store_varchar 80 u = Some u' ∧ store_varchar 200 h = Some h'
    ∧ row = User.mk (users_id_seq (db w)) u' h'
    ∧ filter_by_username u' (users (db w)) = []
    ∧ users (db w1) = users (db w) ++ [row]
    ∧ s = Some (User.id row)
    ∧ ev = [UserInserted row].
Proof.
  intros Hm Hu. unfold handle. rewrite dispatch_register.
  destruct (form req !! "password") as [pw|] eqn:Hp.
  - rewrite (run_register_post _ _ u pw Hm Hu Hp).
    destruct (first _); [discriminate|].
    destruct (generate_password_hash pw _) as [h|] eqn:Hh; [|discriminate].
    destruct (insert_user u h (db w)) as [[e|row] d] eqn:Hins; [discriminate|].
    intros [= <- <- <-].
    apply insert_user_inr in Hins
      as (u' & h' & Hu' & Hh' & Hrow & Husers & _ & _ & _ & Hfree).
    exists pw, h, u', h', row. simpl. rewrite <- Hrow. auto 12.
  - unfold register, form_getitem. rewrite Hm, Hu, Hp. discriminate.
Qed.

(** The row of a registered username is what [.first()] finds from then
    on, whatever requests are served in between. *)
Lemma registered_row_found u row w reqs :
  first (filter_by_username u (users (db w))) = Some row →
  first (filter_by_username u (users (db (serve cfg E reqs w).1))) = Some row.
Proof.
  intros Hrow. destruct (serve_tables reqs w) as [-> _].
  by apply first_filter_by_username_app.
Qed.

Lemma first_after_insert u l row :
  filter_by_username u l = [] → User.username row = u →
  first (filter_by_username u (l ++ [row])) = Some row.
Proof.
  intros Hfree Hu. unfold first, filter_by_username in *.
  rewrite list.filter_app, Hfree. simpl.
  rewrite filter_cons_True by done. done.
Qed.

(** The rows of a username, once there is one, are the same after any
    operation: the duplicate check of the store rejects every later
    insert of that username. *)
Lemma perform_username_rows {X} (op : Op X) w u row :
  filter_by_username u (users (db w)) = [row] →
  filter_by_username u (users (db (perform E op w).1.2)) = [row].
Proof.
  intros Hrow. destruct op; simpl; try done.
  - destruct (insert_user _ _ _) as [[e|row'] d] eqn:Hins; simpl.
    + apply insert_user_inl in Hins as (-> & _). done.
    + apply insert_user_inr in Hins
        as (u' & h' & _ & _ & -> & -> & _ & _ & _ & Hfree).
      unfold filter_by_username in *. rewrite list.filter_app, Hrow. simpl.
      rewrite filter_cons_False, filter_nil; [done|]. simpl.
      intros ->. rewrite Hfree in Hrow. discriminate.
  - destruct (insert_review _ _ _ _) as [[e|row'] d] eqn:Hins; simpl.
    + apply insert_review_inl in Hins as (-> & _). done.
    + apply insert_review_inr in Hins as (t' & _ & _ & -> & _). done.
Qed.

Lemma run_username_rows {A} (p : Prog A) w u row :
  filter_by_username u (users (db w)) = [row] →
  filter_by_username u (users (db (run E p w).1.2)) = [row].
Proof.
  revert w. induction p as [a|e|X op k IH]; intros w Hrow; simpl; try done.
  pose proof (perform_username_rows op w u row Hrow) as H1.
  destruct (perform E op w) as [[[e|x] w1] ev1]; simpl in *; [done|].
  specialize (IH x w1 H1).
  destruct (run E (k x) w1) as [[r2 w2] ev2]. done.
Qed.

Lemma serve_username_rows reqs w u row :
  filter_by_username u (users (db w)) = [row] →
  filter_by_username u (users (db (serve cfg E reqs w).1)) = [row].
Proof.
  revert w. induction reqs as [|[r req] rest IH]; intros w Hrow; simpl; [done|].
  unfold handle. pose proof (run_username_rows (dispatch cfg r req) w u row Hrow) as H1.
  destruct (run E (dispatch cfg r req) w) as [[out w1] ev1]; simpl in *.
  specialize (IH w1 H1). destruct (serve cfg E rest w1) as [w2 ev2]. done.
Qed.

Lemma filter_by_username_after_insert u l row :
  filter_by_username u l = [] → User.username row = u →
  filter_by_username u (l ++ [row]) = [row].
Proof.
  intros Hfree Hu. unfold filter_by_username in *.
  rewrite list.filter_app, Hfree. simpl. by rewrite filter_cons_True.
Qed.

(** A registration attempt with a username that has a row. *)
Lemma register_existing_username req w u pw row :
  method req = POST →
  form req !! "username" = Some u →
  form req !! "password" = Some pw →
  first (filter_by_username u (users (db w))) = Some row →
  handle cfg E route_register req w
  = (inr (redirect "/register", session req), w, []).
Proof.
  intros Hm Hu Hp Hrow. unfold handle.
  rewrite dispatch_register, (run_register_post _ _ u pw Hm Hu Hp), Hrow.
  reflexivity.
Qed.

(** C1 (as the code has it). Once a username has been registered, and
    whatever requests have been served since, a registration attempt with
    that username as the table stores it (the submitted username itself
    when it has at most 80 characters) is answered by a redirect to the
    registration form and changes nothing: no row is inserted, and the
    username still has exactly the one row of the first registration. *)
Theorem register_stored_username_redirects
    (req0 : Request) (w0 w1 : World) (s1 : option Z) (ev1 : list Event)
    (reqs : list (Route * Request)) (req : Request) (u0 u pw : string) :
  method req0 = POST →
  form req0 !! "username" = Some u0 →
  handle cfg E route_register req0 w0 = (inr (redirect "/", s1), w1, ev1) →
  store_varchar 80 u0 = Some u →
  method req = POST →
  form req !! "username" = Some u →
  form req !! "password" = Some pw →
  let w2 := (serve cfg E reqs w1).1 in
  handle cfg E route_register req w2
  = (inr (redirect "/register", session req), w2, [])
  ∧ ∃ row, inserted_users ev1 = [row]
           ∧ User.username row = u
           ∧ filter_by_username u (users (db w2)) = [row].
Proof.
  intros Hm0 Hu0 Hreg Hstored Hm Hu Hp w2.
  destruct (register_success_inv _ _ _ _ _ _ Hm0 Hu0 Hreg)
    as (pw0 & h & u' & h' & row & _ & _ & Hu' & _ & Hrow & Hfree & Husers & _ & ->).
  assert (u' = u) as -> by congruence.
  assert (filter_by_username u (users (db w1)) = [row]) as H1.
  { rewrite Husers. apply filter_by_username_after_insert; [done|by subst row]. }
  pose proof (serve_username_rows reqs w1 u row H1) as H2. fold w2 in H2.
  split.
  - apply (register_existing_username req w2 u pw row Hm Hu Hp).
    unfold first. by rewrite H2.
  - exists row. split; [done|]. split; [by subst row|done].
Qed.

Section Passwords.

(** What is taken from the hashing library: a hash it makes verifies the
    password it was made from, and fits the password column (a bcrypt
    hash has 60 characters).  Nothing is assumed about other
    passwords. *)
Hypothesis check_generated : ∀ pw salt h,
  generate_password_hash pw salt = Some h → check_password_hash h pw = Some true.
Hypothesis hash_fits : ∀ pw salt h,
  generate_password_hash pw salt = Some h → (String.length h ≤ 200)%nat.

(** C2 (as the code has it). After a successful registration of
    (username, password), the username of at most 80 characters, and
    whatever requests have been served since: a login with that pair
    redirects home with the session of the registered user; a login with
    the username and any password is decided by the library's
    verification of that password against the stored hash, and by nothing
    else: verified, the same redirect and session; rejected, the redirect
    to the login form with the session as it was; refused, the exception.
    Whether another password is rejected is the library's affair. *)
Theorem login_after_register
    (req0 : Request) (w0 w1 : World) (s1 : option Z) (ev1 : list Event)
    (reqs : list (Route * Request)) (u pw : string) :
  method req0 = POST →
  form req0 !! "username" = Some u →
  form req0 !! "password" = Some pw →
  (String.length u ≤ 80)%nat →
  handle cfg E route_register req0 w0 = (inr (redirect "/", s1), w1, ev1) →
  let w2 := (serve cfg E reqs w1).1 in
  ∃ row,
    inserted_users ev1 = [row] ∧ User.username row = u
    ∧ generate_password_hash pw (urandom E (clock w0)) = Some (User.password row)
    ∧ s1 = Some (User.id row)
    ∧ (∀ req, method req = POST →
         form req !! "username" = Some u → form req !! "password" = Some pw →
         handle cfg E route_login req w2 = (inr (redirect "/", s1), w2, []))
    ∧ (∀ req pw2, method req = POST →
         form req !! "username" = Some u → form req !! "password" = Some pw2 →
         handle cfg E route_login req w2
         = match check_password_hash (User.password row) pw2 with
           | Some true => (inr (redirect "/", s1), w2, [])
           | Some false => (inr (redirect "/login", session req), w2, [])
           | None => (inl ValueError, w2, [])
           end).
Proof.
  intros Hm0 Hu0 Hp0 Hlen Hreg w2.
  destruct (register_success_inv _ _ _ _ _ _ Hm0 Hu0 Hreg)
    as (pw0 & h & u' & h' & row & Hp0' & Hh & Hu' & Hh' & Hrow & Hfree & Husers & -> & ->).
  assert (pw0 = pw) as -> by congruence.
  rewrite (store_varchar_fits _ _ Hlen) in Hu'. injection Hu' as <-.
  rewrite (store_varchar_fits _ _ (hash_fits _ _ _ Hh)) in Hh'. injection Hh' as <-.
  assert (first (filter_by_username u (users (db w2))) = Some row) as Hfound.
  { apply registered_row_found. rewrite Husers.
    apply first_after_insert; [done|by subst row]. }
  assert (User.password row = h) as Hpass by (by subst row).
  assert (∀ req pw2, method req = POST →
            form req !! "username" = Some u → form req !! "password" = Some pw2 →
            handle cfg E route_login req w2
            = match check_password_hash (User.password row) pw2 with
              | Some true => (inr (redirect "/", Some (User.id row)), w2, [])
              | Some false => (inr (redirect "/login", session req), w2, [])
              | None => (inl ValueError, w2, [])
              end) as Hlogin.
  { intros req pw2 Hm Hu Hp. unfold handle.
    by rewrite dispatch_login, (run_login_post _ _ u pw2 Hm Hu Hp), Hfound. }
  exists row. split; [done|]. split; [by subst row|].
  split; [by rewrite Hpass|]. split; [done|]. split; [|done].
  intros req Hm Hu Hp. rewrite (Hlogin req pw Hm Hu Hp), Hpass.
  by rewrite (check_generated _ _ _ Hh).
Qed.

End Passwords.

(** ** Requests in flight together *)

(** Running a program is doing its next operation and running the rest:
    the interleaved semantics and the sequential one agree on a request
    that is left alone. *)
Lemma run_step {A} (p : Prog A) w :
  run E p w
  = let '(p', w1, ev1) := step E p w in
    let '(r, w2, ev2) := run E p' w1 in (r, w2, ev1 ++ ev2).
Proof.
  destruct p as [a|e|X op k]; simpl; try reflexivity.
  destruct (perform E op w) as [[[e|x] w1] ev1]; simpl.
  - by rewrite app_nil_r.
  - reflexivity.
Qed.

(** C7 (as the code has it). Registration catches nothing.  When the
    duplicate check has passed and, by the time of the insert, another
    request has stored the same username, the uniqueness violation raised
    by the insert ends the request as an unhandled [IntegrityError]: no
    redirect, no row, no session; only the id the sequence gave is
    spent. *)
Theorem register_insert_violation_propagates
    (req : Request) (w0 w1 : World) (u pw h : string) :
  method req = POST →
  form req !! "username" = Some u →
  form req !! "password" = Some pw →
  filter_by_username u (users (db w0)) = [] →
  filter_by_username u (users (db w1)) ≠ [] →
  generate_password_hash pw (urandom E (clock w1)) = Some h →
  (String.length u ≤ 80)%nat →
  (String.length h ≤ 200)%nat →
  run E (step E (register req) w0).1.1 w1
  = (inl IntegrityError, with_db (skip_user_id (db w1)) (tick w1), []).
Proof.
  intros Hm Hu Hp Hfree Htaken Hh Hlu Hlh.
  unfold register, form_getitem. rewrite Hm, Hu, Hp. cbn.
  rewrite Hfree. cbn. rewrite Hh. cbn. unfold insert_user.
  rewrite (store_varchar_fits _ _ Hlu), (store_varchar_fits _ _ Hlh).
  rewrite decide_False by done. reflexivity.
Qed.

(** ** Reading reviews *)



(** C8 (as the code has it). The key sent to the metadata provider is the
    value the environment variable [OMDB_API_KEY] had when the process
    started, or the literal [fallback-api-key] when it was unset; the
    variable [SECRET_KEY] has no part in it. *)
Theorem api_key_from_OMDB_API_KEY :
  OMDB_API_KEY cfg = default "fallback-api-key" (environ !! "OMDB_API_KEY")
  ∧ (∀ secret, OMDB_API_KEY (startup (<["SECRET_KEY" := secret]> environ))
               = OMDB_API_KEY cfg)
  ∧ (∀ fields s w,
       (handle cfg E route_search (mkReq POST fields s) w).2
       = [HttpRequested ("http://www.omdbapi.com/?apikey="
                         +:+ default "fallback-api-key" (environ !! "OMDB_API_KEY")
                         +:+ "&t=" +:+ format_value (fields !! "title"))]).
Proof.
  split; [reflexivity|]. split.
  - intros secret. unfold startup, getenv; simpl.
    rewrite lookup_insert_ne by discriminate. reflexivity.
  - intros fields s w. unfold handle.
    rewrite dispatch_search, run_search_post by reflexivity.
    unfold search_url, form_get; simpl.
    destruct (requests_get E (clock w) _) as [response|]; [|reflexivity].
    destruct (decide _); [destruct (json response)|]; reflexivity.
Qed.

End Properties.

(** C8 (as stated) fails: with [SECRET_KEY] set and [OMDB_API_KEY] unset,
    the key in use is the fallback, not the value of [SECRET_KEY]. *)
Lemma api_key_not_from_SECRET_KEY :
  let environ : gmap string string := {["SECRET_KEY" := "s3cr3t"]} in
  getenv environ "SECRET_KEY" "fallback-api-key" = "s3cr3t"
  ∧ OMDB_API_KEY (startup environ) = "fallback-api-key"
  ∧ OMDB_API_KEY (startup environ) ≠ getenv environ "SECRET_KEY" "fallback-api-key".
Proof. vm_compute. split; [reflexivity|]. split; [reflexivity|discriminate]. Qed.

(** ** A library of the kind the code calls meets what is assumed of it *)

Lemma bcrypt72_check_generated pw salt h :
  @generate_password_hash bcrypt72 pw salt = Some h →
  @check_password_hash bcrypt72 h pw = Some true.
Proof.
  unfold generate_password_hash, check_password_hash, bcrypt72.
  destruct (decide (pw = "")); [discriminate|].
  intros [= <-]. f_equal. by apply bool_decide_eq_true.
Qed.

Lemma bcrypt72_hash_fits pw salt h :
  @generate_password_hash bcrypt72 pw salt = Some h → (String.length h ≤ 200)%nat.
Proof.
  unfold generate_password_hash, bcrypt72.
  generalize (string_take_length 72 pw). generalize (string_take 72 pw).
  intros t Hlen. destruct (decide (pw = "")); [discriminate|].
  intros [= <-]. change (S (String.length t) ≤ 200)%nat. lia.
Qed.

(** ** The scenario of the specification, run on the model

    alice registers, logs in, reviews Dune, and the review is listed. *)
Example scenario_alice_reviews_dune :
  let cfg := startup ∅ in
  let '(r1, w1, _) := handle (bcrypt := plain_bcrypt) cfg quiet_env route_register
                        (post alice_form None) world0 in
  let '(r2, w2, _) := handle (bcrypt := plain_bcrypt) cfg quiet_env route_login
                        (post alice_form None) w1 in
  let '(r3, w3, _) := handle (bcrypt := plain_bcrypt) cfg quiet_env (route_review "Dune")
                        (post [("review_text", "Great")] (Some 1)) w2 in
  let '(r4, _, _) := handle (bcrypt := plain_bcrypt) cfg quiet_env
                       (route_view_reviews "Dune") (get None) w3 in
  r1 = inr (redirect "/", Some 1)
  ∧ r2 = inr (redirect "/", Some 1)
  ∧ r3 = inr (redirect "/", Some 1)
  ∧ r4 = inr (render_template "reviews.html"
                [("title", VStr "Dune");
                 ("reviews", VReviews [Review.mk 1 "Dune" "Great" (User.id alice)])],
              None).
Proof. vm_compute. repeat split. Qed.

(** ** The theorems at the sample data *)

Lemma register_stored_username_redirects_witness :
  handle (bcrypt := plain_bcrypt) (startup ∅) quiet_env route_register
    (post alice_form None) alice_world
  = (inr (redirect "/register", None), alice_world, [])
  ∧ ∃ row, inserted_users [UserInserted alice] = [row]
           ∧ User.username row = "alice"
           ∧ filter_by_username "alice" (users (db alice_world)) = [row].
Proof.
  refine (register_stored_username_redirects (bcrypt := plain_bcrypt) quiet_env ∅
            (post alice_form None) world0 alice_world (Some 1) [UserInserted alice]
            [] (post alice_form None) "alice" "alice" "pw1" _ _ _ _ _ _ _);
    vm_compute; reflexivity.
Defined.

(** C1 (as stated) fails: a username of 81 characters ending in a blank
    registers, the store keeping its first 80; the same registration
    again passes the duplicate check, which looks for the 81, and its
    insert is refused: the answer is the exception, not the redirect to
    the form. *)
Lemma repeated_long_username_raises :
  handle (bcrypt := plain_bcrypt) (startup ∅) quiet_env route_register
    (post long_form None) world0
  = (inr (redirect "/", Some 1), long_world, [UserInserted long_user])
  ∧ handle (bcrypt := plain_bcrypt) (startup ∅) quiet_env route_register
      (post long_form None) long_world
    = (inl IntegrityError, with_db (skip_user_id (db long_world)) (tick long_world), []).
Proof. split; vm_compute; reflexivity. Qed.

Lemma login_after_register_witness :
  ∃ row,
    inserted_users [UserInserted carol] = [row] ∧ User.username row = "carol"
    ∧ @generate_password_hash bcrypt72 password_a (urandom quiet_env (clock world0))
      = Some (User.password row)
    ∧ Some 1 = Some (User.id row)
    ∧ (∀ req, method req = POST →
         form req !! "username" = Some "carol" →
         form req !! "password" = Some password_a →
         handle (bcrypt := bcrypt72) (startup ∅) quiet_env route_login req carol_world
         = (inr (redirect "/", Some 1), carol_world, []))
    ∧ (∀ req pw2, method req = POST →
         form req !! "username" = Some "carol" → form req !! "password" = Some pw2 →
         handle (bcrypt := bcrypt72) (startup ∅) quiet_env route_login req carol_world
         = match @check_password_hash bcrypt72 (User.password row) pw2 with
           | Some true => (inr (redirect "/", Some 1), carol_world, [])
           | Some false => (inr (redirect "/login", session req), carol_world, [])
           | None => (inl ValueError, carol_world, [])
           end).
Proof.
  refine (login_after_register (bcrypt := bcrypt72) quiet_env ∅
            bcrypt72_check_generated bcrypt72_hash_fits
            (post [("username", "carol"); ("password", password_a)] None)
            world0 carol_world (Some 1) [UserInserted carol]
            [] "carol" password_a _ _ _ _ _);
    vm_compute; first [reflexivity|lia].
Defined.

(** C2 (as stated) fails, twice.  With a library that reads 72 bytes of a
    password, as bcrypt does, carol registers with one password and logs
    in with another.  And the user who registered [long_name] cannot log
    in with the pair just registered: the table holds the first 80
    characters, the login looks for the 81. *)
Lemma login_differs_from_the_claim :
  password_b ≠ password_a
  ∧ handle (bcrypt := bcrypt72) (startup ∅) quiet_env route_register
      (post [("username", "carol"); ("password", password_a)] None) world0
    = (inr (redirect "/", Some 1), carol_world, [UserInserted carol])
  ∧ handle (bcrypt := bcrypt72) (startup ∅) quiet_env route_login
      (post [("username", "carol"); ("password", password_b)] None) carol_world
    = (inr (redirect "/", Some 1), carol_world, [])
  ∧ handle (bcrypt := bcrypt72) (startup ∅) quiet_env route_register
      (post long_form None) world0
    = (inr (redirect "/", Some 1), long_world, [UserInserted long_user])
  ∧ handle (bcrypt := bcrypt72) (startup ∅) quiet_env route_login
      (post long_form None) long_world
    = (inr (redirect "/login", None), long_world, []).
Proof. split; [discriminate|]. repeat split; vm_compute; reflexivity. Qed.

Lemma review_requires_login_witness :
  handle (bcrypt := plain_bcrypt) (startup ∅) quiet_env (route_review "Dune")
    (post [("review_text", "Great")] None) alice_world
  = (inr (redirect "/login", None), alice_world, []).
Proof.
  refine (review_requires_login (bcrypt := plain_bcrypt) quiet_env ∅ "Dune"
            (post [("review_text", "Great")] None) alice_world _);
    vm_compute; reflexivity.
Defined.

Lemma search_status_decides_witness :
  handle (bcrypt := plain_bcrypt) (startup ∅) quiet_env route_search
    (post [("title", "NoSuchMovieXYZ")] None) world0
  = (inr (render_template "search.html" [("movie", VJson JNull)], None), tick world0,
     [HttpRequested "http://www.omdbapi.com/?apikey=fallback-api-key&t=NoSuchMovieXYZ"])
  ∧ handle (bcrypt := plain_bcrypt) (startup ∅) found_env route_search
      (post [("title", "Dune")] None) world0
    = (inr (render_template "search.html"
              [("movie", VJson (JObject [("Title", JString "Dune")]))], None),
       tick world0,
       [HttpRequested "http://www.omdbapi.com/?apikey=fallback-api-key&t=Dune"]).
Proof.
  split.
  - refine (proj1 (search_status_decides (bcrypt := plain_bcrypt) quiet_env ∅
                     (post [("title", "NoSuchMovieXYZ")] None) world0
                     {| status_code := 404; json := None |} _ _) _);
      vm_compute; first [reflexivity|discriminate].
  - refine (proj2 (search_status_decides (bcrypt := plain_bcrypt) found_env ∅
                     (post [("title", "Dune")] None) world0
                     {| status_code := 200;
                        json := Some (JObject [("Title", JString "Dune")]) |} _ _)
                  (JObject [("Title", JString "Dune")]) _ _);
      vm_compute; reflexivity.
Defined.

Lemma register_insert_violation_propagates_witness :
  run (bcrypt := plain_bcrypt) quiet_env
    (step (bcrypt := plain_bcrypt) quiet_env (register (post alice_form None)) world0).1.1
    alice_world
  = (inl IntegrityError, with_db (skip_user_id (db alice_world)) (tick alice_world), []).
Proof.
  refine (register_insert_violation_propagates (bcrypt := plain_bcrypt) quiet_env
            (post alice_form None) world0 alice_world "alice" "pw1" "$pw1"
            _ _ _ _ _ _ _ _);
    vm_compute; first [reflexivity|discriminate|lia].
Defined.

Lemma review_missing_text_faults_witness :
  handle (bcrypt := plain_bcrypt) (startup ∅) quiet_env (route_review "Dune")
    (post [] (Some 1)) alice_world
  = (inl (BadRequestKeyError "review_text"), alice_world, []).
Proof.
  refine (review_missing_text_faults (bcrypt := plain_bcrypt) quiet_env ∅ "Dune"
            (post [] (Some 1)) alice_world alice _ _ _);
    vm_compute; reflexivity.
Defined.

Lemma search_missing_title_requests_None_witness :
  ∃ outcome,
    handle (bcrypt := plain_bcrypt) (startup ∅) quiet_env route_search
      (post [] None) world0
    = (outcome, tick world0,
       [HttpRequested ("http://www.omdbapi.com/?apikey="
                       +:+ OMDB_API_KEY (startup ∅) +:+ "&t=None")])
    ∧ ∀ key, outcome ≠ inl (BadRequestKeyError key).
Proof.
  refine (search_missing_title_requests_None (bcrypt := plain_bcrypt) quiet_env ∅
            (post [] None) world0 _ _);
    vm_compute; reflexivity.
Defined.

(** C7 (as stated) fails: two registrations of the same username, each
    past its duplicate check before the other commits.  The first is
    logged in; the insert of the second violates the uniqueness of the
    username and the request ends with the exception, not with the
    redirect to the registration form. *)
Lemma register_race_raises_IntegrityError :
  interleave (bcrypt := plain_bcrypt) quiet_env race_schedule
    (register (post alice_form None)) (register (post alice_form None)) world0
  = (Ret (redirect "/", Some 1), Raise IntegrityError,
     with_db (skip_user_id (db alice_world)) (tick (tick world0)),
     [UserInserted alice])
  ∧ Raise IntegrityError ≠ Ret (redirect "/register", @None Z).
Proof. split; [vm_compute; reflexivity|discriminate]. Qed.

(** * The rest of the application: invariants and compositions *)

Section Invariants.
Context {bcrypt : Bcrypt} (E : Env) (environ : gmap string string).

Abbreviation cfg := (startup environ).

(** ** What every operation keeps, every run keeps *)

Section Preservation.
Variable P : World → Prop.
Hypothesis perform_keeps : ∀ X (op : Op X) w, P w → P (perform E op w).1.2.

Lemma step_keeps {A} (p : Prog A) w : P w → P (step E p w).1.2.
Proof.
  intros Hw. destruct p as [a|e|X op k]; simpl; try done.
  pose proof (perform_keeps X op w Hw) as H1.
  destruct (perform E op w) as [[r w1] ev1]. done.
Qed.

Lemma run_keeps {A} (p : Prog A) w : P w → P (run E p w).1.2.
Proof.
  revert w. induction p as [a|e|X op k IH]; intros w Hw; simpl; try done.
  pose proof (perform_keeps X op w Hw) as H1.
  destruct (perform E op w) as [[[e|x] w1] ev1]; simpl in *; [done|].
  specialize (IH x w1 H1). destruct (run E (k x) w1) as [[r2 w2] ev2]. done.
Qed.

Lemma serve_keeps reqs w : P w → P (serve cfg E reqs w).1.
Proof.
  revert w. induction reqs as [|[r req] rest IH]; intros w Hw; simpl; [done|].
  unfold handle. pose proof (run_keeps (dispatch cfg r req) w Hw) as H1.
  destruct (run E (dispatch cfg r req) w) as [[out w1] ev1]; simpl in *.
  specialize (IH w1 H1). destruct (serve cfg E rest w1) as [w2 ev2]. done.
Qed.

Lemma interleave_keeps {A} sched (p1 p2 : Prog A) w :
  P w → P (interleave E sched p1 p2 w).1.2.
Proof.
  revert p1 p2 w. induction sched as [|b sched IH]; intros p1 p2 w Hw; simpl; [done|].
  destruct b.
  - pose proof (step_keeps p1 w Hw) as H1.
    destruct (step E p1 w) as [[p1' w1] ev1]; simpl in *.
    specialize (IH p1' p2 w1 H1).
    destruct (interleave E sched p1' p2 w1) as [[[q1 q2] w2] ev2]. done.
  - pose proof (step_keeps p2 w Hw) as H1.
    destruct (step E p2 w) as [[p2' w1] ev1]; simpl in *.
    specialize (IH p1 p2' w1 H1).
    destruct (interleave E sched p1 p2' w1) as [[[q1 q2] w2] ev2]. done.
Qed.

End Preservation.

(** ** Usernames stay unique *)

Lemma filter_by_username_nil_not_in u l :
  filter_by_username u l = [] → u ∉ User.username <$> l.
Proof.
  intros Hnil (row & -> & Hin)%list_elem_of_fmap.
  by apply (filter_nil_not_elem_of _ _ row Hnil).
Qed.

Lemma perform_usernames_unique {X} (op : Op X) w :
  NoDup (User.username <$> users (db w)) →
  NoDup (User.username <$> users (db (perform E op w).1.2)).
Proof.
  intros Hnd. destruct op; simpl; try done.
  - destruct (insert_user _ _ _) as [[e|row] d] eqn:Hins; simpl.
    + apply insert_user_inl in Hins as (-> & _). done.
    + apply insert_user_inr in Hins
        as (u' & h' & _ & _ & -> & -> & _ & _ & _ & Hfree).
      rewrite fmap_app. simpl. apply list.NoDup_app. split; [done|]. split.
      * intros x Hx ->%list_elem_of_singleton.
        by apply (filter_by_username_nil_not_in _ _ Hfree).
      * apply NoDup_singleton.
  - destruct (insert_review _ _ _ _) as [[e|row] d] eqn:Hins; simpl.
    + apply insert_review_inl in Hins as (-> & _). done.
    + apply insert_review_inr in Hins as (t' & _ & _ & -> & _). done.
Qed.

(** X1. From the empty tables, whatever requests are served, no two rows
    of [users] have the same username. *)
Theorem usernames_unique (reqs : list (Route * Request)) (c : nat) :
  NoDup (User.username <$>
           users (db (serve cfg E reqs {| db := empty_db; clock := c |}).1)).
Proof.
  apply (serve_keeps (λ w, NoDup (User.username <$> users (db w)))).
  - intros X op w. apply perform_usernames_unique.
  - simpl. apply NoDup_nil_2.
Qed.

(** X2. Two requests handled together, in whatever order their
    operations fall, cannot leave two rows with one username: the race of
    two registrations costs the loser its request, never the table its
    uniqueness. *)
Theorem usernames_unique_interleaved
    (sched : list bool) (r1 r2 : Route) (req1 req2 : Request) (w : World) :
  NoDup (User.username <$> users (db w)) →
  NoDup (User.username <$>
           users (db (interleave E sched (dispatch cfg r1 req1)
                        (dispatch cfg r2 req2) w).1.2)).
Proof.
  apply (interleave_keeps (λ w, NoDup (User.username <$> users (db w)))).
  intros X op w'. apply perform_usernames_unique.
Qed.

(** X3. No request updates or deletes a row: after any sequence of
    requests both tables are what they were, followed by the rows the log
    records as inserted, in that order. *)
Theorem tables_append_only (reqs : list (Route * Request)) (w : World) :
  let w' := (serve cfg E reqs w).1 in
  let log := (serve cfg E reqs w).2 in
  users (db w') = users (db w) ++ inserted_users log
  ∧ reviews (db w') = reviews (db w) ++ inserted_reviews log.
Proof. intros w' log. apply serve_tables. Qed.

(** ** Primary keys and the foreign key *)

Lemma query_get_app i l k :
  is_Some (query_get i l) → query_get i (l ++ k) = query_get i l.
Proof.
  unfold query_get, first. rewrite list.filter_app.
  destruct (filter _ l); [intros [? ?]; discriminate|done].
Qed.

Lemma query_get_Some i l row :
  query_get i l = Some row → row ∈ l ∧ User.id row = i.
Proof.
  unfold query_get, first. intros Hhead.
  destruct (filter (λ r, User.id r = i) l) as [|x rest] eqn:Hf; [discriminate|].
  injection Hhead as ->.
  assert (row ∈ filter (λ r, User.id r = i) l) as [Hid Hin]%list_elem_of_filter
    by (rewrite Hf; left).
  done.
Qed.

Lemma query_get_in l row :
  NoDup (User.id <$> l) → row ∈ l → query_get (User.id row) l = Some row.
Proof.
  unfold query_get, first. induction l as [|x l IH]; intros Hnd Hin.
  - by apply elem_of_nil in Hin.
  - rewrite fmap_cons in Hnd. apply list.NoDup_cons in Hnd as [Hx Hnd].
    apply elem_of_cons in Hin as [->|Hin].
    + by rewrite filter_cons_True.
    + rewrite filter_cons_False; [by apply IH|].
      intros Heq. apply Hx. rewrite Heq. apply list_elem_of_fmap. eauto.
Qed.

Lemma fresh_not_in (ids : list Z) (n : Z) : Forall (λ i, i < n) ids → n ∉ ids.
Proof.
  intros Hall Hin. rewrite list.Forall_forall in Hall. specialize (Hall n Hin). lia.
Qed.

Lemma perform_db_ok {X} (op : Op X) w :
  db_ok (db w) → db_ok (db (perform E op w).1.2).
Proof.
  intros Hok. destruct op; simpl; try done.
  - destruct Hok as (Hlen & Hn & Hi & Hlt & Hri & Hrlt & Hfk).
    unfold insert_user.
    destruct (store_varchar 80 username) as [u'|] eqn:Hu'; [|done].
    destruct (store_varchar 200 hashed_pw) as [h'|]; [|done].
    destruct (decide _) as [Hfree|]; simpl.
    + repeat split; simpl; try done.
      * apply list.Forall_app. split; [done|]. apply Forall_singleton. simpl.
        by apply (store_varchar_length _ _ _ Hu').
      * rewrite fmap_app. apply list.NoDup_app.
        split; [done|]. split; [|apply NoDup_singleton].
        intros x Hx ->%list_elem_of_singleton.
        by apply (filter_by_username_nil_not_in _ _ Hfree).
      * rewrite fmap_app. apply list.NoDup_app.
        split; [done|]. split; [|apply NoDup_singleton].
        intros x Hx ->%list_elem_of_singleton. revert Hx. simpl.
        apply fresh_not_in. by apply Forall_fmap.
      * apply list.Forall_app. split.
        -- eapply list.Forall_impl; [exact Hlt|]. simpl. intros; lia.
        -- apply Forall_singleton. simpl. lia.
      * eapply list.Forall_impl; [exact Hfk|]. simpl. intros r Hsome.
        by rewrite query_get_app.
    + repeat split; simpl; try done.
      eapply list.Forall_impl; [exact Hlt|]. simpl. intros; lia.
  - destruct Hok as (Hlen & Hn & Hi & Hlt & Hri & Hrlt & Hfk).
    unfold insert_review.
    destruct (store_varchar 255 title) as [t'|]; [|done].
    destruct (decide _) as [|Huser]; simpl.
    + repeat split; simpl; try done.
      eapply list.Forall_impl; [exact Hrlt|]. simpl. intros; lia.
    + repeat split; simpl; try done.
      * rewrite fmap_app. apply list.NoDup_app.
        split; [done|]. split; [|apply NoDup_singleton].
        intros x Hx ->%list_elem_of_singleton. revert Hx. simpl.
        apply fresh_not_in. by apply Forall_fmap.
      * apply list.Forall_app. split.
        -- eapply list.Forall_impl; [exact Hrlt|]. simpl. intros; lia.
        -- apply Forall_singleton. simpl. lia.
      * apply list.Forall_app. split; [done|]. apply Forall_singleton. simpl.
        by destruct (query_get uid (users (db w))); [eexists|].
Qed.

Lemma empty_db_ok : db_ok empty_db.
Proof. repeat split; simpl; try apply NoDup_nil_2; apply Forall_nil_2. Qed.

Lemma serve_db_ok reqs w : db_ok (db w) → db_ok (db (serve cfg E reqs w).1).
Proof.
  apply (serve_keeps (λ w, db_ok (db w))). intros X op w'. apply perform_db_ok.
Qed.

Lemma handle_db_ok r req w : db_ok (db w) → db_ok (db (handle cfg E r req w).1.2).
Proof.
  apply (run_keeps (λ w, db_ok (db w))). intros X op w'. apply perform_db_ok.
Qed.

(** X4. From the empty tables, whatever requests are served, the user
    loader given the id of any stored user returns that very row (ids are
    never shared), and reads without changing anything. *)
Theorem load_user_returns_the_row
    (reqs : list (Route * Request)) (c : nat) (row : User.t) :
  let w := (serve cfg E reqs {| db := empty_db; clock := c |}).1 in
  row ∈ users (db w) →
  run E (load_user (User.id row)) w = (inr (Some row), w, []).
Proof.
  intros w Hin. unfold load_user. simpl.
  destruct (serve_db_ok reqs {| db := empty_db; clock := c |} empty_db_ok)
    as (_ & _ & Hids & _).
  fold w in Hids. by rewrite (query_get_in _ _ Hids Hin).
Qed.

(** X5. From the empty tables, whatever requests are served, every review
    belongs to a stored user: its [user_id] is the id of a row of
    [users]. *)
Theorem reviews_have_their_user (reqs : list (Route * Request)) (c : nat) :
  let w := (serve cfg E reqs {| db := empty_db; clock := c |}).1 in
  Forall (λ r, ∃ u, u ∈ users (db w) ∧ User.id u = Review.user_id r)
         (reviews (db w)).
Proof.
  intros w.
  destruct (serve_db_ok reqs {| db := empty_db; clock := c |} empty_db_ok)
    as (_ & _ & _ & _ & _ & _ & Hfk).
  fold w in Hfk. eapply list.Forall_impl; [exact Hfk|]. simpl.
  intros r [u Hu]. exists u. by apply query_get_Some.
Qed.

(** ** Sessions *)

Lemma first_filter_by_username_Some u l row :
  first (filter_by_username u l) = Some row → row ∈ l ∧ User.username row = u.
Proof.
  unfold first, filter_by_username. intros Hhead.
  destruct (filter (λ r, User.username r = u) l) as [|x rest] eqn:Hf; [discriminate|].
  injection Hhead as ->.
  assert (row ∈ filter (λ r, User.username r = u) l) as [Hu Hin]%list_elem_of_filter
    by (rewrite Hf; left).
  done.
Qed.

(** A login that ends in the redirect home found a row of that username
    whose hash verifies the password, and changed nothing. *)
Lemma login_success_inv req w s w1 ev u :
  method req = POST →
  form req !! "username" = Some u →
  handle cfg E route_login req w = (inr (redirect "/", s), w1, ev) →
  ∃ pw row,
    form req !! "password" = Some pw
    ∧ row ∈ users (db w) ∧ User.username row = u
    ∧ check_password_hash (User.password row) pw = Some true
    ∧ s = Some (User.id row) ∧ w1 = w ∧ ev = [].
Proof.
  intros Hm Hu. unfold handle. rewrite dispatch_login.
  destruct (form req !! "password") as [pw|] eqn:Hp.
  - rewrite (run_login_post _ _ _ u pw Hm Hu Hp).
    destruct (first _) as [row|] eqn:Hrow; [|discriminate].
    destruct (check_password_hash _ _) as [[|]|] eqn:Hcheck; [|discriminate..].
    intros [= <- <- <-].
    apply first_filter_by_username_Some in Hrow as [Hin Hname].
    exists pw, row. auto 10.
  - unfold login, form_getitem. rewrite Hm, Hu, Hp. discriminate.
Qed.

(** X6. A login changes nothing on the server, and it ends in one of two
    ways only: the redirect to the login form with the session as it was,
    or the redirect home with the session of a stored user who has the
    submitted username and whose stored hash verifies the submitted
    password.  Nobody is logged in on any other ground. *)
Theorem login_only_with_verified_password
    (req : Request) (w w1 : World) (out : Exn + Response * option Z)
    (ev : list Event) :
  method req = POST →
  handle cfg E route_login req w = (out, w1, ev) →
  w1 = w ∧ ev = []
  ∧ ∀ resp s, out = inr (resp, s) →
      (resp = redirect "/login" ∧ s = session req)
      ∨ (resp = redirect "/"
         ∧ ∃ u pw row,
             form req !! "username" = Some u ∧ form req !! "password" = Some pw
             ∧ row ∈ users (db w) ∧ User.username row = u
             ∧ check_password_hash (User.password row) pw = Some true
             ∧ s = Some (User.id row)).
Proof.
  intros Hm. unfold handle. rewrite dispatch_login.
  destruct (form req !! "username") as [u|] eqn:Hu;
    [destruct (form req !! "password") as [pw|] eqn:Hp|].
  - rewrite (run_login_post _ _ _ u pw Hm Hu Hp).
    destruct (first _) as [row|] eqn:Hrow;
      [destruct (check_password_hash _ _) as [[|]|] eqn:Hcheck|];
      intros [= <- <- <-]; (split; [done|]); (split; [done|]);
      intros resp s [= <- <-]; auto.
    right. split; [done|]. exists u, pw, row.
    apply first_filter_by_username_Some in Hrow as [Hin Hname]. auto 10.
  - unfold login, form_getitem. rewrite Hm, Hu, Hp. simpl.
    intros [= <- <- <-]. repeat split. intros; discriminate.
  - unfold login, form_getitem. rewrite Hm, Hu. simpl.
    intros [= <- <- <-]. repeat split. intros; discriminate.
Qed.

(** X7. The session handed out by a successful registration or login
    keeps resolving to one user, the one whose stored username is what
    the store keeps of the submitted username (the submitted username
    itself when it has at most 80 characters, and always at a login):
    from the empty tables, whatever was served before and whatever is
    served after, the guard of the protected routes finds that user. *)
Theorem session_resolves_to_user
    (before after : list (Route * Request)) (c : nat) (r : Route) (req : Request)
    (u : string) (s : option Z) (w1 : World) (ev1 : list Event) :
  let w := (serve cfg E before {| db := empty_db; clock := c |}).1 in
  r = route_register ∨ r = route_login →
  method req = POST →
  form req !! "username" = Some u →
  handle cfg E r req w = (inr (redirect "/", s), w1, ev1) →
  ∃ row, s = Some (User.id row)
         ∧ current_user s (serve cfg E after w1).1 = Some row
         ∧ store_varchar 80 u = Some (User.username row)
         ∧ (r = route_login → User.username row = u).
Proof.
  intros w Hr Hm Hu Hh.
  assert (db_ok (db w)) as Hok by (apply serve_db_ok, empty_db_ok).
  assert (db_ok (db w1)) as Hok1.
  { pose proof (handle_db_ok r req w Hok) as H1. by rewrite Hh in H1. }
  assert (∃ row, row ∈ users (db w1)
                 ∧ store_varchar 80 u = Some (User.username row)
                 ∧ (r = route_login → User.username row = u)
                 ∧ s = Some (User.id row)) as (row & Hin & Hname & Hlogin & ->).
  { destruct Hr as [-> | ->].
    - destruct (register_success_inv _ _ _ _ _ _ _ _ Hm Hu Hh)
        as (pw & h & u' & h' & row & _ & _ & Hu' & _ & Hrow & _ & Husers & Hs & _).
      exists row. rewrite Husers. split; [|by subst row].
      apply elem_of_app. right. by left.
    - destruct (login_success_inv _ _ _ _ _ _ Hm Hu Hh)
        as (pw & row & _ & Hin & Hn & _ & Hs & -> & _).
      exists row. split; [done|]. split; [|done].
      destruct Hok as (Hlen & _). rewrite list.Forall_forall in Hlen.
      rewrite <- Hn. apply store_varchar_fits, Hlen, Hin. }
  exists row. split; [done|]. split; [|done].
  pose proof (serve_db_ok after w1 Hok1) as (_ & _ & Hids & _).
  destruct (serve_tables E environ after w1) as [Husers _].
  unfold current_user. simpl. apply query_get_in; [done|].
  rewrite Husers. apply elem_of_app. by left.
Qed.

(** ** Registration is all or nothing *)

(** X8. A POST to /register either leaves the rows of both tables as
    they were, inserts nothing and answers, if it answers at all, with
    the redirect to the form and the session as it was; or it inserts
    exactly one row, whose username is what the store keeps of the
    submitted one, and answers with the redirect home and the session of
    that row.  There is no row without the login, and no login without
    the row. *)
Theorem register_all_or_nothing
    (req : Request) (w w1 : World) (out : Exn + Response * option Z)
    (ev : list Event) :
  method req = POST →
  handle cfg E route_register req w = (out, w1, ev) →
  (users (db w1) = users (db w) ∧ reviews (db w1) = reviews (db w) ∧ ev = []
   ∧ ∀ resp s, out = inr (resp, s) → resp = redirect "/register" ∧ s = session req)
  ∨ (∃ u row, form req !! "username" = Some u
              ∧ store_varchar 80 u = Some (User.username row)
              ∧ users (db w1) = users (db w) ++ [row]
              ∧ reviews (db w1) = reviews (db w)
              ∧ ev = [UserInserted row]
              ∧ out = inr (redirect "/", Some (User.id row))).
Proof.
  intros Hm. unfold handle. rewrite dispatch_register.
  destruct (form req !! "username") as [u|] eqn:Hu;
    [destruct (form req !! "password") as [pw|] eqn:Hp|].
  - rewrite (run_register_post _ _ _ u pw Hm Hu Hp).
    destruct (first _) as [row0|].
    { intros [= <- <- <-]. left. split; [done|]. split; [done|]. split; [done|].
      by intros resp s [= <- <-]. }
    destruct (generate_password_hash pw _) as [h|].
    2: { intros [= <- <- <-]. left. split; [done|]. split; [done|]. split; [done|].
      intros; discriminate. }
    destruct (insert_user u h (db w)) as [[e|row] d] eqn:Hins.
    { intros [= <- <- <-]. left.
      apply insert_user_inl in Hins as (Husers & Hreviews & _).
      split; [done|]. split; [done|]. split; [done|]. intros; discriminate. }
    intros [= <- <- <-]. right.
    apply insert_user_inr in Hins
      as (u' & h' & Hu' & _ & Hrow & Husers & Hreviews & _).
    exists u, row. simpl. subst row. simpl. auto 10.
  - unfold register, form_getitem. rewrite Hm, Hu, Hp. simpl.
    intros [= <- <- <-]. left. split; [done|]. split; [done|]. split; [done|].
    intros; discriminate.
  - unfold register, form_getitem. rewrite Hm, Hu. simpl.
    intros [= <- <- <-]. left. split; [done|]. split; [done|]. split; [done|].
    intros; discriminate.
Qed.

(** X9. At /register and at /login alike, a POST without [username]
    fails on that field, whatever else the form holds, and a POST with
    [username] but without [password] fails on [password]; in both cases
    before anything is read from or written to the tables. *)
Theorem credentials_are_required (r : Route) (req : Request) (w : World) :
  r = route_register ∨ r = route_login →
  method req = POST →
  (form req !! "username" = None →
   handle cfg E r req w = (inl (BadRequestKeyError "username"), w, []))
  ∧ (is_Some (form req !! "username") → form req !! "password" = None →
     handle cfg E r req w = (inl (BadRequestKeyError "password"), w, [])).
Proof.
  intros Hr Hm. unfold handle. split.
  - intros Hu. destruct Hr as [-> | ->].
    + rewrite dispatch_register. unfold register, form_getitem.
      by rewrite Hm, Hu.
    + rewrite dispatch_login. unfold login, form_getitem.
      by rewrite Hm, Hu.
  - intros [u Hu] Hp. destruct Hr as [-> | ->].
    + rewrite dispatch_register. unfold register, form_getitem.
      by rewrite Hm, Hu, Hp.
    + rewrite dispatch_login. unfold login, form_getitem.
      by rewrite Hm, Hu, Hp.
Qed.

(** ** Writing a review and reading it back *)

(** X10. An authenticated POST to /review/<title> with a text, for a
    title that fits its column, stores one review carrying the title of
    the URL, the text of the form and the id of the logged-in user, and
    redirects home; /reviews/<title> then lists it, after the reviews of
    that title that were there before. *)
Theorem review_is_stored_and_listed
    (title text : string) (req : Request) (w : World) (usr : User.t) :
  method req = POST →
  current_user (session req) w = Some usr →
  form req !! "review_text" = Some text →
  (String.length title ≤ 255)%nat →
  let row := Review.mk (reviews_id_seq (db w)) title text (User.id usr) in
  ∃ w1,
    handle cfg E (route_review title) req w
    = (inr (redirect "/", session req), w1, [ReviewInserted row])
    ∧ users (db w1) = users (db w)
    ∧ reviews (db w1) = reviews (db w) ++ [row]
    ∧ ∀ fields s,
        handle cfg E (route_view_reviews title) (mkReq GET fields s) w1
        = (inr (render_template "reviews.html"
                  [("title", VStr title);
                   ("reviews",
                    VReviews (filter_by_movie_title title (reviews (db w)) ++ [row]))],
                s), w1, []).
Proof.
  intros Hm Hu Hf Hlen row. unfold handle.
  rewrite dispatch_review, (run_login_required_user _ _ _ _ _ usr Hu).
  assert (query_get (User.id usr) (users (db w)) = Some usr) as Hget.
  { unfold current_user in Hu. destruct (session req) as [i|]; [|discriminate].
    simpl in Hu. destruct (query_get_Some _ _ _ Hu) as [_ <-]. done. }
  unfold review, form_getitem. rewrite Hm, Hf. cbn.
  unfold insert_review. rewrite (store_varchar_fits _ _ Hlen).
  rewrite decide_False by (rewrite Hget; discriminate). cbn.
  eexists. split; [reflexivity|]. split; [reflexivity|]. split; [reflexivity|].
  intros fields s. cbn.
  unfold filter_by_movie_title. rewrite list.filter_app.
  by rewrite (filter_cons_True _ row []).
Qed.

(** ** Logging out *)

(** X11. After GET /logout the session the client holds resolves to no
    user, whoever asked: a logged-in client is sent home with the session
    cleared, any other is sent to the login page with a session that was
    worth nothing already.  The server's state is not touched. *)
Theorem logout_leaves_anonymous
    (fields : gmap string string) (s : option Z) (w : World) :
  ∃ resp s',
    handle cfg E route_logout (mkReq GET fields s) w = (inr (resp, s'), w, [])
    ∧ current_user s' w = None
    ∧ (is_Some (current_user s w) → resp = redirect "/" ∧ s' = None)
    ∧ (current_user s w = None → resp = redirect "/login" ∧ s' = s).
Proof.
  unfold handle.
  change (dispatch cfg route_logout (mkReq GET fields s))
    with (login_required cfg logout (mkReq GET fields s)).
  destruct (current_user s w) as [usr|] eqn:Hu.
  - rewrite (run_login_required_user E environ logout (mkReq GET fields s) w usr Hu).
    simpl.
    exists (redirect "/"), None. repeat split; intros; discriminate.
  - rewrite (run_login_required_anonymous E environ logout (mkReq GET fields s) w Hu).
    simpl.
    exists (redirect "/login"), s. repeat split; try done;
      intros [? ?]; discriminate.
Qed.

(** ** Which route does what *)

(** X12. A GET, to whichever route and with whatever session, leaves the
    server exactly as it was: no row is inserted, no sequence advances,
    no salt is drawn and no outbound request is made. *)
Theorem get_changes_nothing
    (r : Route) (fields : gmap string string) (s : option Z) (w : World) :
  (handle cfg E r (mkReq GET fields s) w).1.2 = w
  ∧ (handle cfg E r (mkReq GET fields s) w).2 = [].
Proof.
  unfold handle.
  assert (∀ view, (∀ u, run E (view u (mkReq GET fields s)) w
                        = ((run E (view u (mkReq GET fields s)) w).1.1, w, [])) →
          (run E (login_required cfg view (mkReq GET fields s)) w).1.2 = w
          ∧ (run E (login_required cfg view (mkReq GET fields s)) w).2 = [])
    as Hguard.
  { intros view Hview. destruct (current_user s w) as [usr|] eqn:Hu.
    - rewrite (run_login_required_user E environ view (mkReq GET fields s) w usr Hu).
      by rewrite Hview.
    - by rewrite (run_login_required_anonymous E environ view (mkReq GET fields s) w Hu). }
  destruct r; try (split; reflexivity); apply Hguard; reflexivity.
Qed.

(** The events each view can leave. *)
Lemma register_events req w :
  inserted_reviews (run E (register req) w).2 = []
  ∧ http_requests (run E (register req) w).2 = []
  ∧ (inserted_users (run E (register req) w).2 ≠ [] → method req = POST).
Proof.
  destruct (method req) eqn:Hm.
  { unfold register. rewrite Hm. simpl. done. }
  destruct (form req !! "username") as [u|] eqn:Hu;
    [destruct (form req !! "password") as [pw|] eqn:Hp|].
  - rewrite (run_register_post _ _ _ u pw Hm Hu Hp).
    destruct (first _); [done|].
    destruct (generate_password_hash pw _); [|done].
    destruct (insert_user _ _ _) as [[e|row] d]; done.
  - unfold register, form_getitem. rewrite Hm, Hu, Hp. done.
  - unfold register, form_getitem. rewrite Hm, Hu. done.
Qed.

Lemma login_events req w : (run E (login req) w).2 = [].
Proof.
  destruct (method req) eqn:Hm.
  { unfold login. rewrite Hm. done. }
  destruct (form req !! "username") as [u|] eqn:Hu;
    [destruct (form req !! "password") as [pw|] eqn:Hp|].
  - rewrite (run_login_post _ _ _ u pw Hm Hu Hp).
    destruct (first _); [|done]. by destruct (check_password_hash _ _) as [[|]|].
  - unfold login, form_getitem. rewrite Hm, Hu, Hp. done.
  - unfold login, form_getitem. rewrite Hm, Hu. done.
Qed.

Lemma search_events req w :
  inserted_users (run E (search cfg req) w).2 = []
  ∧ inserted_reviews (run E (search cfg req) w).2 = []
  ∧ (http_requests (run E (search cfg req) w).2 ≠ [] → method req = POST).
Proof.
  destruct (method req) eqn:Hm.
  { unfold search. rewrite Hm. done. }
  rewrite (run_search_post _ _ _ _ Hm). cbv zeta.
  destruct (requests_get E _ _) as [response|]; [|done].
  destruct (decide _); [|done]. by destruct (json response).
Qed.

Lemma review_events title usr req w :
  inserted_users (run E (review title usr req) w).2 = []
  ∧ http_requests (run E (review title usr req) w).2 = []
  ∧ (inserted_reviews (run E (review title usr req) w).2 ≠ [] → method req = POST).
Proof.
  destruct (method req) eqn:Hm.
  { unfold review. rewrite Hm. done. }
  unfold review, form_getitem. rewrite Hm.
  destruct (form req !! "review_text") as [text|]; [|done]. cbn.
  destruct (insert_review _ _ _ _) as [[e|row] d]; done.
Qed.

Lemma login_required_events view req w :
  (run E (login_required cfg view req) w).2 = []
  ∨ ∃ usr, (run E (login_required cfg view req) w).2 = (run E (view usr req) w).2.
Proof.
  destruct (current_user (session req) w) as [usr|] eqn:Hu.
  - right. exists usr. by rewrite (run_login_required_user _ _ _ _ _ usr Hu).
  - left. by rewrite (run_login_required_anonymous _ _ _ _ _ Hu).
Qed.

(** X13. Each kind of effect has one source: a request inserts a user
    only if it is a POST to /register, inserts a review only if it is a
    POST to /review/<title>, and calls the metadata provider only if it is
    a POST to /search. *)
Theorem effects_by_route (r : Route) (req : Request) (w : World) :
  let ev := (handle cfg E r req w).2 in
  (inserted_users ev ≠ [] → r = route_register ∧ method req = POST)
  ∧ (inserted_reviews ev ≠ [] → (∃ title, r = route_review title) ∧ method req = POST)
  ∧ (http_requests ev ≠ [] → r = route_search ∧ method req = POST).
Proof.
  cbv zeta. unfold handle. destruct r.
  - unfold dispatch. by destruct (method req).
  - rewrite dispatch_register.
    destruct (register_events req w) as (-> & -> & Hu). naive_solver.
  - rewrite dispatch_login, login_events. done.
  - unfold dispatch. destruct (method req); [|done].
    destruct (login_required_events logout req w) as [-> | [usr ->]]; done.
  - rewrite dispatch_search.
    destruct (search_events req w) as (-> & -> & Hs). naive_solver.
  - rewrite dispatch_review.
    destruct (login_required_events (review title) req w) as [-> | [usr ->]];
      [done|].
    destruct (review_events title usr req w) as (-> & -> & Hr). naive_solver.
  - unfold dispatch. by destruct (method req).
Qed.

(** ** When the metadata provider cannot be used *)

(** X14. The search does not cover for a provider that cannot be reached
    or that answers 200 with something that is not JSON: the request ends
    with the exception ([ConnectionError], [JSONDecodeError]) instead of
    rendering the page without a movie.  The outbound call was made. *)
Theorem search_failures_are_raised (req : Request) (w : World) :
  method req = POST →
  let url := search_url environ (form_get (form req) "title") in
  (requests_get E (clock w) url = None →
   handle cfg E route_search req w
   = (inl ConnectionError, tick w, [HttpRequested url]))
  ∧ (∀ response, requests_get E (clock w) url = Some response →
       status_code response = 200 → json response = None →
       handle cfg E route_search req w
       = (inl JSONDecodeError, tick w, [HttpRequested url])).
Proof.
  intros Hm url. unfold handle.
  rewrite dispatch_search, (run_search_post _ _ _ _ Hm). cbv zeta. fold url. split.
  - by intros ->.
  - intros response -> H200 Hj. by rewrite decide_True, Hj.
Qed.

(** ** What registration keeps of the password *)

(** X15. The row a successful registration stores holds, in its password
    column, the hash the library made of the submitted password under the
    salt drawn at that moment, as the store keeps it (the hash itself
    when it has at most 200 characters); never the submitted password
    unless the library returns it.  The session is that of this row. *)
Theorem register_stores_the_hash
    (req : Request) (w w1 : World) (s : option Z) (ev : list Event)
    (u pw : string) :
  method req = POST →
  form req !! "username" = Some u →
  form req !! "password" = Some pw →
  handle cfg E route_register req w = (inr (redirect "/", s), w1, ev) →
  ∃ h row,
    generate_password_hash pw (urandom E (clock w)) = Some h
    ∧ store_varchar 200 h = Some (User.password row)
    ∧ store_varchar 80 u = Some (User.username row)
    ∧ users (db w1) = users (db w) ++ [row]
    ∧ ev = [UserInserted row]
    ∧ s = Some (User.id row).
Proof.
  intros Hm Hu Hp Hreg.
  destruct (register_success_inv _ _ _ _ _ _ _ _ Hm Hu Hreg)
    as (pw0 & h & u' & h' & row & Hp' & Hh & Hu' & Hh' & Hrow & _ & Husers & Hs & Hev).
  assert (pw0 = pw) as -> by congruence.
  exists h, row. subst row. simpl. auto 10.
Qed.

End Invariants.

(** ** The further theorems at the sample data *)

Lemma usernames_unique_interleaved_witness :
  NoDup (User.username <$>
           users (db (interleave (bcrypt := plain_bcrypt) quiet_env race_schedule
                        (dispatch (bcrypt := plain_bcrypt) (startup ∅) route_register
                           (post alice_form None))
                        (dispatch (bcrypt := plain_bcrypt) (startup ∅) route_register
                           (post alice_form None))
                        world0).1.2)).
Proof.
  refine (usernames_unique_interleaved (bcrypt := plain_bcrypt) quiet_env ∅
            race_schedule route_register route_register
            (post alice_form None) (post alice_form None) world0 _).
  vm_compute. constructor.
Defined.

Lemma load_user_returns_the_row_witness :
  run (bcrypt := plain_bcrypt) quiet_env (load_user (User.id alice))
    (serve (bcrypt := plain_bcrypt) (startup ∅) quiet_env
       [(route_register, post alice_form None)] world0).1
  = (inr (Some alice),
     (serve (bcrypt := plain_bcrypt) (startup ∅) quiet_env
        [(route_register, post alice_form None)] world0).1, []).
Proof.
  refine (load_user_returns_the_row (bcrypt := plain_bcrypt) quiet_env ∅
            [(route_register, post alice_form None)] 0%nat alice _).
  vm_compute. left.
Defined.

Lemma login_only_with_verified_password_witness :
  alice_world = alice_world ∧ @nil Event = []
  ∧ ∀ resp s, @inr Exn _ (redirect "/", Some 1) = inr (resp, s) →
      (resp = redirect "/login" ∧ s = session (post alice_form None))
      ∨ (resp = redirect "/"
         ∧ ∃ u pw row,
             form (post alice_form None) !! "username" = Some u
             ∧ form (post alice_form None) !! "password" = Some pw
             ∧ row ∈ users (db alice_world) ∧ User.username row = u
             ∧ @check_password_hash plain_bcrypt (User.password row) pw = Some true
             ∧ s = Some (User.id row)).
Proof.
  refine (login_only_with_verified_password (bcrypt := plain_bcrypt) quiet_env ∅
            (post alice_form None) alice_world alice_world
            (inr (redirect "/", Some 1)) [] _ _);
    vm_compute; reflexivity.
Defined.

Lemma session_resolves_to_user_witness :
  ∃ row, Some 1 = Some (User.id row)
         ∧ current_user (Some 1)
             (serve (bcrypt := plain_bcrypt) (startup ∅) quiet_env [] alice_world).1
           = Some row
         ∧ store_varchar 80 "alice" = Some (User.username row)
         ∧ (route_register = route_login → User.username row = "alice").
Proof.
  refine (session_resolves_to_user (bcrypt := plain_bcrypt) quiet_env ∅
            [] [] 0%nat route_register (post alice_form None) "alice" (Some 1)
            alice_world [UserInserted alice] _ _ _ _).
  - left. reflexivity.
  - reflexivity.
  - vm_compute. reflexivity.
  - vm_compute. reflexivity.
Defined.

Lemma register_all_or_nothing_witness :
  (users (db long_world) = users (db world0)
   ∧ reviews (db long_world) = reviews (db world0)
   ∧ [UserInserted long_user] = []
   ∧ ∀ resp s, @inr Exn _ (redirect "/", Some 1) = inr (resp, s) →
       resp = redirect "/register" ∧ s = session (post long_form None))
  ∨ (∃ u row, form (post long_form None) !! "username" = Some u
              ∧ store_varchar 80 u = Some (User.username row)
              ∧ users (db long_world) = users (db world0) ++ [row]
              ∧ reviews (db long_world) = reviews (db world0)
              ∧ [UserInserted long_user] = [UserInserted row]
              ∧ @inr Exn _ (redirect "/", Some 1)
                = inr (redirect "/", Some (User.id row))).
Proof.
  refine (register_all_or_nothing (bcrypt := plain_bcrypt) quiet_env ∅
            (post long_form None) world0 long_world
            (inr (redirect "/", Some 1)) [UserInserted long_user] _ _);
    vm_compute; reflexivity.
Defined.

Lemma credentials_are_required_witness :
  (form (post [("password", "pw1")] None) !! "username" = None →
   handle (bcrypt := plain_bcrypt) (startup ∅) quiet_env route_login
     (post [("password", "pw1")] None) alice_world
   = (inl (BadRequestKeyError "username"), alice_world, []))
  ∧ (is_Some (form (post [("password", "pw1")] None) !! "username") →
     form (post [("password", "pw1")] None) !! "password" = None →
     handle (bcrypt := plain_bcrypt) (startup ∅) quiet_env route_login
       (post [("password", "pw1")] None) alice_world
     = (inl (BadRequestKeyError "password"), alice_world, [])).
Proof.
  refine (credentials_are_required (bcrypt := plain_bcrypt) quiet_env ∅
            route_login (post [("password", "pw1")] None) alice_world _ _).
  - right. reflexivity.
  - reflexivity.
Defined.

Lemma review_is_stored_and_listed_witness :
  ∃ w1,
    handle (bcrypt := plain_bcrypt) (startup ∅) quiet_env (route_review "Dune")
      (post [("review_text", "Great")] (Some 1)) alice_world
    = (inr (redirect "/", Some 1), w1, [ReviewInserted (Review.mk 1 "Dune" "Great" 1)])
    ∧ users (db w1) = users (db alice_world)
    ∧ reviews (db w1) = reviews (db alice_world) ++ [Review.mk 1 "Dune" "Great" 1]
    ∧ ∀ fields s,
        handle (bcrypt := plain_bcrypt) (startup ∅) quiet_env
          (route_view_reviews "Dune") (mkReq GET fields s) w1
        = (inr (render_template "reviews.html"
                  [("title", VStr "Dune");
                   ("reviews",
                    VReviews (filter_by_movie_title "Dune" (reviews (db alice_world))
                              ++ [Review.mk 1 "Dune" "Great" 1]))],
                s), w1, []).
Proof.
  refine (review_is_stored_and_listed (bcrypt := plain_bcrypt) quiet_env ∅
            "Dune" "Great" (post [("review_text", "Great")] (Some 1)) alice_world
            alice _ _ _ _);
    vm_compute; first [reflexivity|lia].
Defined.

Lemma search_failures_are_raised_witness :
  let url := search_url ∅ (form_get (form (post [("title", "Dune")] None)) "title") in
  (requests_get broken_env (clock world0) url = None →
   handle (bcrypt := plain_bcrypt) (startup ∅) broken_env route_search
     (post [("title", "Dune")] None) world0
   = (inl ConnectionError, tick world0, [HttpRequested url]))
  ∧ (∀ response, requests_get broken_env (clock world0) url = Some response →
       status_code response = 200 → json response = None →
       handle (bcrypt := plain_bcrypt) (startup ∅) broken_env route_search
         (post [("title", "Dune")] None) world0
       = (inl JSONDecodeError, tick world0, [HttpRequested url])).
Proof.
  refine (search_failures_are_raised (bcrypt := plain_bcrypt) broken_env ∅
            (post [("title", "Dune")] None) world0 _).
  reflexivity.
Defined.

Lemma register_stores_the_hash_witness :
  ∃ h row,
    @generate_password_hash plain_bcrypt "pw1" (urandom quiet_env (clock world0)) = Some h
    ∧ store_varchar 200 h = Some (User.password row)
    ∧ store_varchar 80 "alice" = Some (User.username row)
    ∧ users (db alice_world) = users (db world0) ++ [row]
    ∧ [UserInserted alice] = [UserInserted row]
    ∧ Some 1 = Some (User.id row).
Proof.
  refine (register_stores_the_hash (bcrypt := plain_bcrypt) quiet_env ∅
            (post alice_form None) world0 alice_world (Some 1) [UserInserted alice]
            "alice" "pw1" _ _ _ _);
    vm_compute; reflexivity.
Defined.
